(** * Web content scraper: the extraction pipeline of [extract_selenium.py]

    A shallow embedding of the text normalizer ([clean_text]), the content
    extractor ([extract_content]), the plain-text renderer
    ([create_text_file]) and the browser session discipline of
    [fetch_with_selenium], with the properties of the specification settled
    against them. *)

From Stdlib Require Import NArith String Ascii List Bool Lia.
From stdpp Require Import base decidable option list countable gmap strings.

Local Open Scope N_scope.
Local Open Scope list_scope.

(** ** Python strings

    A Python [str] is a sequence of Unicode code points and [len] counts
    code points, so a text is a list of code points.  Tag names, attribute
    names and block types are only ever compared with ASCII literals and are
    kept as [string]. *)

Module PyStr.

Abbreviation str := (list N).

(** An ASCII literal as a Python string. *)
Definition lit (s : string) : str :=
  map N_of_ascii (list_ascii_of_string s).

(** [len(s)] *)
Definition len (s : str) : nat := length s.

(** [Py_UNICODE_ISSPACE]: the characters [str.strip()] removes and that [\s]
    matches in a [str] pattern. *)
Definition isspace (c : N) : bool :=
  ((0x09 <=? c) && (c <=? 0x0D))
  || ((0x1C <=? c) && (c <=? 0x20))
  || (c =? 0x85) || (c =? 0xA0) || (c =? 0x1680)
  || ((0x2000 <=? c) && (c <=? 0x200A))
  || (c =? 0x2028) || (c =? 0x2029) || (c =? 0x202F)
  || (c =? 0x205F) || (c =? 0x3000).

(** [s.lstrip()], [s.rstrip()], [s.strip()] *)
Fixpoint lstrip (s : str) : str :=
  match s with
  | [] => []
  | c :: r => if isspace c then lstrip r else s
  end.

Definition rstrip (s : str) : str := rev (lstrip (rev s)).

Definition strip (s : str) : str := rstrip (lstrip s).

(** [s.replace(old, new)] for a one-character [old]. *)
Definition replace_char (old : N) (new : str) (s : str) : str :=
  flat_map (fun c => if c =? old then new else [c]) s.

(** [sep.join(parts)] *)
Fixpoint join (sep : str) (parts : list str) : str :=
  match parts with
  | [] => []
  | [p] => p
  | p :: rest => p ++ sep ++ join sep rest
  end.

(** [c * n] for a one-character string [c]. *)
Definition times (c : N) (n : nat) : str := repeat c n.

End PyStr.

Import PyStr.

(** ** Text normalizer *)

(** The class [[\x00-\x08\x0b-\x0c\x0e-\x1f\x7f-\x9f]]. *)
Definition is_control (c : N) : bool :=
  (c <=? 0x08)
  || ((0x0B <=? c) && (c <=? 0x0C))
  || ((0x0E <=? c) && (c <=? 0x1F))
  || ((0x7F <=? c) && (c <=? 0x9F)).

(** [re.sub] of the control class by the empty string. *)
Definition sub_control (text : str) : str :=
  List.filter (fun c => negb (is_control c)) text.

(** [re.sub] of [\s+] by one space: every maximal run of whitespace becomes one
    space.  [in_run] tells that the previous character belonged to a run
    whose space has been written already. *)
Fixpoint sub_spaces_from (in_run : bool) (text : str) : str :=
  match text with
  | [] => []
  | c :: r =>
      if isspace c
      then (if in_run then sub_spaces_from true r
            else 0x20 :: sub_spaces_from true r)
      else c :: sub_spaces_from false r
  end.

Definition sub_spaces (text : str) : str := sub_spaces_from false text.

(** The three [replace] calls: U+00A0 by a space, U+200B and U+FEFF by
    nothing. *)
Definition replace_special (text : str) : str :=
  replace_char 0xFEFF [] (replace_char 0x200B [] (replace_char 0xA0 [0x20] text)).

(** [clean_text] *)
Definition clean_text (text : str) : str :=
  match text with
  | [] => []
  | _ => strip (replace_special (sub_spaces (sub_control text)))
  end.

(** ** Normal form of a text

    The zero-width characters of [clean_text]; a text whose whitespace is
    single ASCII spaces ([after_space] tells that the character before was
    one); a character that is neither a control nor a zero-width character;
    a text with no whitespace at either end. *)
Definition zero_width (c : N) : bool := (c =? 0x200B) || (c =? 0xFEFF).

Fixpoint spaced (after_space : bool) (s : str) : Prop :=
  match s with
  | [] => True
  | c :: r =>
      if isspace c then c = 0x20 /\ after_space = false /\ spaced true r
      else spaced false r
  end.

Definition plain (c : N) : Prop := is_control c = false /\ zero_width c = false.

Definition trimmed (s : str) : Prop :=
  match s with [] => True | c :: _ => isspace c = false end
  /\ forall p c, s = p ++ [c] -> isspace c = false.

(** ** The parsed document

    [BeautifulSoup(html_content, "html.parser")] builds a tree of tags and
    strings; the soup itself is the tag named [[document]] that holds the
    top-level nodes.  [Tag.attrs] is a dict.  Comments and the like do not
    contribute to [get_text] and are not part of the tree. *)

#[local] Unset Elimination Schemes.
Inductive node : Type :=
| NavigableString (s : str)
| Tag (name : string) (attrs : gmap string str) (contents : list node).
#[local] Set Elimination Schemes.

Definition BeautifulSoup (contents : list node) : node :=
  Tag "[document]" ∅ contents.

(** [tag.descendants]: every node below [tag], in document order. *)
Fixpoint descendants (n : node) : list node :=
  match n with
  | NavigableString _ => []
  | Tag _ _ cs => flat_map (fun c => c :: descendants c) cs
  end.

Definition has_name (names : list string) (n : node) : bool :=
  match n with
  | NavigableString _ => false
  | Tag nm _ _ => existsb (String.eqb nm) names
  end.

Definition get_attr (key : string) (n : node) : option str :=
  match n with
  | NavigableString _ => None
  | Tag _ at_ _ => at_ !! key
  end.

(** [tag.find(...)]: the first descendant, in document order, that the
    filter accepts; [tag.find_all(names)]: all descendants with one of the
    names, in document order. *)
Definition find (p : node -> bool) (n : node) : option node :=
  List.find p (descendants n).

Definition find_all (names : list string) (n : node) : list node :=
  List.filter (has_name names) (descendants n).

(** [for tag in soup(names): tag.decompose()]: every tag with one of the
    names leaves the tree, with everything below it. *)
Fixpoint decompose_all (names : list string) (n : node) : node :=
  match n with
  | NavigableString _ => n
  | Tag nm at_ cs =>
      Tag nm at_
        ((fix go (l : list node) : list node :=
            match l with
            | [] => []
            | c :: r =>
                if has_name names c then go r
                else decompose_all names c :: go r
            end) cs)
  end.

(** The strings below a tag, in document order. *)
Definition all_strings (n : node) : list str :=
  omap (fun d => match d with NavigableString s => Some s | Tag _ _ _ => None end)
       (descendants n).

Definition nonempty (s : str) : bool :=
  match s with [] => false | _ :: _ => true end.

(** [tag.get_text()] and [tag.get_text(strip=True)]: the strings joined by
    the empty separator; with [strip], each string is stripped first and
    left out when nothing remains. *)
Definition get_text (n : node) : str := concat (all_strings n).

Definition get_text_strip (n : node) : str :=
  concat (List.filter nonempty (map strip (all_strings n))).

(** ** Regular expressions of the content-root selectors

    [re.compile(r"content|main", re.I)] and
    [re.compile(r"content|main|wrapper", re.I)] are alternatives of
    lower-case ASCII words, used with [search].  Under [re.I] a [str]
    pattern letter matches its two ASCII cases; the letter i also matches
    U+0130 and U+0131. *)

Definition ci_char (p x : N) : bool :=
  (x =? p) || (x =? p - 32)
  || ((p =? 0x69) && ((x =? 0x130) || (x =? 0x131))).

Fixpoint ci_prefix (pat s : str) : bool :=
  match pat, s with
  | [], _ => true
  | _ :: _, [] => false
  | p :: pat', x :: s' => ci_char p x && ci_prefix pat' s'
  end.

Fixpoint ci_search (pat s : str) : bool :=
  ci_prefix pat s
  || match s with [] => false | _ :: s' => ci_search pat s' end.

Definition re_search (alternatives : list string) (s : str) : bool :=
  existsb (fun w => ci_search (lit w) s) alternatives.

(** An attribute filter with a compiled pattern accepts a tag when the
    attribute is present and the pattern is found in its value.  For
    [class_] the parser keeps the list of classes and the filter tries
    every class and then the classes joined by spaces; as the patterns
    hold no whitespace, that is a search in the attribute value. *)
Definition attr_search (key : string) (alternatives : list string) (n : node) : bool :=
  match get_attr key n with
  | Some v => re_search alternatives v
  | None => false
  end.

(** ** Content extractor *)

(** A block is the dict with the keys [type] and [text]. *)
Record block : Type := Block { type : string; text : str }.

(** [extract_content] returns the list, or fails with the [AttributeError] of
    calling [find_all] on [None]. *)
Inductive result (A : Type) : Type :=
| Ok (a : A)
| AttributeError.
Arguments Ok {A} a.
Arguments AttributeError {A}.

(** The pair of [content_structure] and [processed_texts]. *)
Definition state : Type := list block * gset str.

Definition unwanted : list string :=
  ["script"; "style"; "noscript"; "iframe"; "svg"; "path"]%string.

Definition headings : list string :=
  ["h1"; "h2"; "h3"; "h4"; "h5"; "h6"]%string.

Definition candidates : list string :=
  ["h1"; "h2"; "h3"; "h4"; "h5"; "h6"; "p"; "li"; "td"; "blockquote";
   "div"; "span"; "a"]%string.

Definition node_name (n : node) : string :=
  match n with
  | NavigableString _ => ""
  | Tag nm _ _ => nm
  end.

(** Lines 128-133. *)
Definition title_step (soup : node) (st : state) : state :=
  match find (has_name ["title"%string]) soup with
  | Some title =>
      let title_text := clean_text (get_text title) in
      if nonempty title_text && (3 <? len title_text)%nat
      then (st.1 ++ [Block "title" title_text], {[title_text]} ∪ st.2)
      else st
  | None => st
  end.

(** Lines 135-140. *)
Definition is_meta_description (n : node) : bool :=
  has_name ["meta"%string] n
  && match get_attr "name" n with
     | Some v => bool_decide (v = lit "description")
     | None => false
     end.

Definition meta_step (soup : node) (st : state) : state :=
  match find is_meta_description soup with
  | Some meta_desc =>
      match get_attr "content" meta_desc with
      | Some content =>
          if nonempty content then
            let desc_text := clean_text content in
            if nonempty desc_text && (10 <? len desc_text)%nat
            then (st.1 ++ [Block "paragraph" desc_text], {[desc_text]} ∪ st.2)
            else st
          else st
      | None => st
      end
  | None => st
  end.

(** Python's [a or b] on the results of [find]: a tag is always true. *)
Definition or_else {A} (a : option A) (b : option A) : option A :=
  match a with Some _ => a | None => b end.

(** Lines 142-148. *)
Definition main_content (soup : node) : option node :=
  or_else (find (has_name ["main"%string]) soup)
  (or_else (find (has_name ["article"%string]) soup)
  (or_else (find (attr_search "id" ["content"; "main"]%string) soup)
  (or_else (find (attr_search "class" ["content"; "main"; "wrapper"]%string) soup)
           (find (has_name ["body"%string]) soup)))).

(** The body of the loop, lines 167-180. *)
Definition visit (st : state) (element : node) : state :=
  let text := clean_text (get_text_strip element) in
  if negb (nonempty text) || (len text <? 10)%nat || bool_decide (text ∈ st.2)
  then st
  else if (len text <? 20)%nat && has_name ["a"; "span"; "div"]%string element
  then st
  else
    let processed_texts := {[text]} ∪ st.2 in
    if has_name headings element
    then (st.1 ++ [Block (node_name element) text], processed_texts)
    else if (30 <? len text)%nat
    then (st.1 ++ [Block "paragraph" text], processed_texts)
    else (st.1, processed_texts).

(** The state when the loop starts, after the title and the description;
    and [extract_content], over the document as the parser built it. *)
Definition header (soup : node) : state :=
  meta_step soup (title_step soup ([], ∅)).

Definition extract_content (parsed : node) : result (list block) :=
  let soup := decompose_all unwanted parsed in
  match main_content soup with
  | Some root => Ok (foldl visit (header soup) (find_all candidates root)).1
  | None => AttributeError
  end.

(** ** Plain-text renderer *)

(** [int(c)] for a decimal digit [c]. *)
Definition int_of_digit (c : ascii) : nat := nat_of_ascii c - 48.

(** [item["type"][1]] *)
Definition second_char (s : string) : ascii :=
  match String.get 1 s with
  | Some c => c
  | None => "000"%char
  end.

Section PlainText.

(** [str.upper], the Unicode upper-casing of the interpreter. *)
Variable upper : str -> str.

(** What one iteration of the loop appends to [text_content]. *)
Definition render_item (item : block) : list str :=
  let text := text item in
  if String.eqb (type item) "title" then
    [times 0x3D 80; upper text; times 0x3D 80; []]
  else if existsb (String.eqb (type item)) ["h1"; "h2"; "h3"; "h4"]%string then
    let level := int_of_digit (second_char (type item)) in
    [[]; times 0x23 level ++ lit " " ++ text; []]
  else if String.eqb (type item) "paragraph" then
    [text; []]
  else [].

Definition text_lines (content_structure : list block) : list str :=
  foldl (fun text_content item => text_content ++ render_item item)
        [] content_structure.

(** [create_text_file] *)
Definition create_text_file (content_structure : list block) : str :=
  join [0x0A] (text_lines content_structure).

End PlainText.

(** The type of a heading block of the given level: [h] and the digit. *)
Definition heading_type (level : nat) : string :=
  String "h" (String (ascii_of_nat (48 + level)) EmptyString).

(** The lines the specification gives for a heading: a blank line, [level]
    hashes, a space and the text, a blank line. *)
Definition heading_lines (level : nat) (t : str) : list str :=
  [[]; times 0x23 level ++ lit " " ++ t; []].

Definition fifth_level : block := Block "h5" (lit "Fifth level").

(** ** Browser session of the fetch orchestrator

    The calls that leave the program, each of which may raise.  A browser is
    named by the position of the call that created it. *)

Module Fetch.

Inductive call : Type :=
| ProgressCallback (percent : nat)
| ChromeWithService          (* line 41 *)
| ChromeDefault              (* line 45 *)
| DriverManagerInstall       (* line 49 *)
| ChromeWithManager          (* line 50 *)
| HideWebdriverFlag (d : nat) (* line 52 *)
| Get (d : nat)
| WaitForBody (d : nat)
| Sleep (seconds : nat)
| ScrollTo (d : nat) (stage : nat)
| PageSource (d : nat)
| Title (d : nat)
| Quit (d : nat).

(** A call and whether it returned ([true]) or raised ([false]). *)
Definition event : Type := call * bool.

(** The outside world: which call raises, counted from the start of the
    run, and what the page is. *)
Record browser : Type := {
  raises : nat -> bool;
  page_source : str;
  title : str
}.

(** The calls made so far and the local variable [driver] of
    [fetch_with_selenium] ([None] until [setup_driver] has returned). *)
Record world : Type := World {
  trace : list event;
  driver : option nat
}.

Inductive outcome (A : Type) : Type :=
| Returned (a : A)
| Raised.
Arguments Returned {A} a.
Arguments Raised {A}.

Definition M (A : Type) : Type := browser -> world -> outcome A * world.

Definition ret {A} (a : A) : M A := fun _ w => (Returned a, w).

Definition bind {A B} (m : M A) (k : A -> M B) : M B :=
  fun b w =>
    match m b w with
    | (Returned a, w') => k a b w'
    | (Raised, w') => (Raised, w')
    end.

Definition raise {A} : M A := fun _ w => (Raised, w).

#[local] Instance M_ret : MRet M := @ret.
#[local] Instance M_bind : MBind M := fun A B k m => bind m k.

(** One call to the outside; it returns the position it has in the trace. *)
Definition do (c : call) : M nat :=
  fun b w =>
    let i := length (trace w) in
    if raises b i
    then (Raised, World (trace w ++ [(c, false)]) (driver w))
    else (Returned i, World (trace w ++ [(c, true)]) (driver w)).

(** [try: body except: handler] *)
Definition try_except {A} (body handler : M A) : M A :=
  fun b w =>
    match body b w with
    | (Returned a, w') => (Returned a, w')
    | (Raised, w') => handler b w'
    end.

(** [try: body finally: cleanup]: the cleanup runs on both exits, and an
    exception of the cleanup replaces the outcome of the body. *)
Definition try_finally {A} (body : M A) (cleanup : M unit) : M A :=
  fun b w =>
    match body b w with
    | (r, w') =>
        match cleanup b w' with
        | (Returned _, w'') => (r, w'')
        | (Raised, w'') => (Raised, w'')
        end
    end.

Definition assign_driver (d : nat) : M unit :=
  fun _ w => (Returned tt, World (trace w) (Some d)).

Definition read_driver : M (option nat) :=
  fun _ w => (Returned (driver w), w).

Definition ask {A} (f : browser -> A) : M A :=
  fun b w => (Returned (f b), w).

(** [if progress_callback: progress_callback(message, percent)] *)
Definition report (progress_callback : bool) (percent : nat) : M unit :=
  if progress_callback then do (ProgressCallback percent) ;; ret tt else ret tt.

(** [setup_driver], lines 38-55; building the options object makes no call
    to the outside. *)
Definition setup_driver : M nat :=
  d ← try_except (do ChromeWithService)
         (try_except (do ChromeDefault)
            (do DriverManagerInstall ;; do ChromeWithManager));
  do (HideWebdriverFlag d) ;;
  ret d.

(** [fetch_with_selenium], lines 60-105. *)
Definition fetch_with_selenium (progress_callback : bool) : M (str * str) :=
  try_finally
    (try_except
       (report progress_callback 10 ;;
        d ← setup_driver;
        assign_driver d ;;
        report progress_callback 30 ;;
        do (Get d) ;;
        report progress_callback 50 ;;
        do (WaitForBody d) ;;
        do (Sleep 5) ;;
        report progress_callback 70 ;;
        do (ScrollTo d 1) ;;
        do (Sleep 2) ;;
        do (ScrollTo d 2) ;;
        do (Sleep 2) ;;
        do (ScrollTo d 3) ;;
        do (Sleep 1) ;;
        do (PageSource d) ;;
        html_content ← ask page_source;
        do (Title d) ;;
        page_title ← ask title;
        report progress_callback 90 ;;
        ret (html_content, page_title))
       raise)
    (d ← read_driver;
     match d with
     | Some d => do (Quit d) ;; ret tt
     | None => ret tt
     end).

Definition start : world := World [] None.

Definition creates (c : call) : bool :=
  match c with
  | ChromeWithService | ChromeDefault | ChromeWithManager => true
  | _ => false
  end.

(** The browsers that were started, and those that were quit. *)
Definition started (tr : list event) : list nat :=
  omap (fun '(i, (c, ok)) => if creates c && ok then Some i else None)
       (imap (fun i e => (i, e)) tr).

Definition quit_called (tr : list event) : list nat :=
  omap (fun '(c, _) => match c with Quit d => Some d | _ => None end) tr.

(** Every browser started during the run has had [quit] called on it. *)
Definition torn_down (tr : list event) : Prop :=
  Forall (fun d => d ∈ quit_called tr) (started tr).

#[global] Instance torn_down_dec tr : Decision (torn_down tr).
Proof. unfold torn_down. apply _. Defined.

(** A browser with a fixed page, raising where [fails] says; and the one
    that starts and then fails the first script, the one of
    [setup_driver]. *)
Definition cooperative (fails : nat -> bool) : browser :=
  {| raises := fails; page_source := lit "<html></html>"; title := lit "Acme" |}.

Definition failing_setup : browser := cooperative (fun i => Nat.eqb i 1).

End Fetch.

(** ** Further statements about the browser session *)

Module FetchStatements.
Import Fetch.

(** The percentages passed to the progress callback, in order. *)
Definition reported (tr : list event) : list nat :=
  omap (fun '(c, _) => match c with ProgressCallback p => Some p | _ => None end) tr.

(** The calls whose exception [setup_driver] catches: the first two attempts
    to start Chrome. *)
Definition caught (c : call) : bool :=
  match c with
  | ChromeWithService | ChromeDefault => true
  | _ => false
  end.

(** The call returned, or its exception was caught. *)
Definition harmless (e : event) : bool := e.2 || caught e.1.

(** The calls made after the first one whose exception was not caught. *)
Fixpoint after_failure (tr : list event) : option (list event) :=
  match tr with
  | [] => None
  | e :: rest => if harmless e then after_failure rest else Some rest
  end.

End FetchStatements.

(** ** Documents used below, as the parser builds them *)

Definition el (name : string) (contents : list node) : node := Tag name ∅ contents.

Definition txt (s : string) : node := NavigableString (lit s).

(** The page of the end-to-end scenario. *)
Definition acme : node :=
  BeautifulSoup
    [el "html"
       [el "head" [el "title" [txt "Acme Co"]];
        el "body"
          [el "h1" [txt "Welcome to Acme"];
           el "p" [txt "Acme builds widgets for the modern era, delivering quality."];
           el "div" [txt "Nav"]]]].

Definition acme_result : list block :=
  [Block "title" (lit "Acme Co");
   Block "h1" (lit "Welcome to Acme");
   Block "paragraph" (lit "Acme builds widgets for the modern era, delivering quality.")].

(** A page whose only [title] element is the one of an inline drawing. *)
Definition logo_title : node := el "title" [txt "Company logo"].

Definition logo_page : node :=
  BeautifulSoup
    [el "html"
       [el "head" [];
        el "body"
          [el "svg" [logo_title];
           el "p" [txt "Acme builds widgets for the modern era, delivering quality."]]]].

(** A page whose meta description repeats its title. *)
Definition same_title_description : node :=
  BeautifulSoup
    [el "html"
       [el "head"
          [el "title" [txt "Acme Company Home"];
           Tag "meta" {[ "name"%string := lit "description";
                         "content"%string := lit "Acme Company Home" ]} []];
        el "body" []]].

(** The parse of [<p>Hello world</p>]: the parser adds no [html] or [body]. *)
Definition no_body : node := BeautifulSoup [el "p" [txt "Hello world"]].

(** A short paragraph followed by a heading with the same text. *)
Definition mission_p : node := el "p" [txt "Our Mission Here"].

Definition mission_h2 : node := el "h2" [txt "Our Mission Here"].

Definition mission (with_paragraph : bool) : node :=
  BeautifulSoup
    [el "html"
       [el "body"
          ((if with_paragraph then [mission_p] else []) ++ [mission_h2])]].

(** An empty page. *)
Definition blank_page : node :=
  BeautifulSoup [el "html" [el "head" []; el "body" [txt "   "]]].

(** The letter a, a space, U+200B, a space, the letter b. *)
Definition zero_width_sample : str := lit "a " ++ [0x200B] ++ lit " b".

(** What one visit does, case by case: the element is skipped, or its text
    joins [processed_texts] and at most one block is appended. *)
Inductive visit_spec (st : state) (element : node) : state -> Prop :=
| visit_skip :
    let t := clean_text (get_text_strip element) in
    (len t < 10)%nat \/ t ∈ st.2
    \/ ((len t < 20)%nat /\ has_name ["a"; "span"; "div"]%string element = true) ->
    visit_spec st element st
| visit_heading :
    let t := clean_text (get_text_strip element) in
    (10 <= len t)%nat -> t ∉ st.2 ->
    In (node_name element) headings ->
    visit_spec st element (st.1 ++ [Block (node_name element) t], {[t]} ∪ st.2)
| visit_paragraph :
    let t := clean_text (get_text_strip element) in
    (30 < len t)%nat -> t ∉ st.2 ->
    has_name headings element = false ->
    visit_spec st element (st.1 ++ [Block "paragraph" t], {[t]} ∪ st.2)
| visit_drop :
    let t := clean_text (get_text_strip element) in
    (10 <= len t <= 30)%nat -> t ∉ st.2 ->
    has_name headings element = false ->
    ((20 <= len t)%nat \/ has_name ["a"; "span"; "div"]%string element = false) ->
    visit_spec st element (st.1, {[t]} ∪ st.2).

(** ** Statements about the extractor *)

(** The two length policies: of a title or description block, and of a block
    of the traversal. *)
Definition header_ok (b : block) : Prop :=
  (type b = "title"%string /\ 3 < len (text b))%nat
  \/ (type b = "paragraph"%string /\ 10 < len (text b))%nat.

Definition traversal_ok (b : block) : Prop :=
  type b <> "title"%string /\ (10 <= len (text b))%nat.

(** An element passes the length rules of the loop (lines 169 and 172),
    whatever [processed_texts] holds. *)
Definition passes_length_rules (element : node) : Prop :=
  let t := clean_text (get_text_strip element) in
  (10 <= len t)%nat
  /\ ~ ((len t < 20)%nat /\ has_name ["a"; "span"; "div"]%string element = true).

(** [processed_texts] holds exactly the texts of the blocks emitted so far. *)
Definition dedup_tracks_emitted (st : state) : Prop :=
  forall t, t ∈ st.2 <-> t ∈ map text st.1.

(** ** The content root as the specification words it

    An ordered list of selectors, evaluated in sequence, the first match
    returned. *)
Definition root_selectors : list (node -> bool) :=
  [ has_name ["main"%string];
    has_name ["article"%string];
    attr_search "id" ["content"; "main"]%string;
    attr_search "class" ["content"; "main"; "wrapper"]%string;
    has_name ["body"%string] ].

Fixpoint first_match (chain : list (node -> bool)) (soup : node) : option node :=
  match chain with
  | [] => None
  | selector :: rest =>
      match find selector soup with
      | Some element => Some element
      | None => first_match rest soup
      end
  end.

(** [r] is the first element of the document, in document order, that the
    selector accepts. *)
Definition first_in_document (selector : node -> bool) (soup r : node) : Prop :=
  exists before after,
    descendants soup = before ++ r :: after
    /\ selector r = true
    /\ forall d, In d before -> selector d = false.

(** The selector accepts no element of the document. *)
Definition no_match (soup : node) (selector : node -> bool) : Prop :=
  forall d, In d (descendants soup) -> selector d = false.

(** The root is the first element matched by the first selector of the chain
    that matches anything; there is none when no selector matches. *)
Definition chain_root (chain : list (node -> bool)) (soup : node) (r : option node) : Prop :=
  match r with
  | Some r =>
      exists earlier selector later,
        chain = earlier ++ selector :: later
        /\ Forall (no_match soup) earlier
        /\ first_in_document selector soup r
  | None => Forall (no_match soup) chain
  end.

(** ** Further statements about the normalizer *)

(** A character that [clean_text] never lets through into a word: a
    whitespace, control or zero-width character. *)
Definition blank_char (c : N) : bool :=
  isspace c || is_control c || zero_width c.

(** What holds of every character of a normalized text, and the normal
    form. *)
Definition clean_char (c : N) : Prop :=
  is_control c = false /\ zero_width c = false /\ c <> 0xA0
  /\ (isspace c = true -> c = 0x20).

Definition normal_form (r : str) : Prop :=
  Forall clean_char r /\ spaced false r /\ trimmed r.

(** ** Further statements about the extractor *)

(** The block the loop appends for an element it emits (lines 177-180). *)
Definition block_of (element : node) : block :=
  Block (if has_name headings element then node_name element else "paragraph")
        (clean_text (get_text_strip element)).

(** The length policy of the loop by kind: a heading of at least 10
    characters, or a paragraph of more than 30. *)
Definition emitted_ok (b : block) : Prop :=
  (In (type b) headings /\ (10 <= len (text b))%nat)
  \/ (type b = "paragraph"%string /\ (30 < len (text b))%nat).

(** The children that [decompose_all] leaves below a tag. *)
Definition decompose_children (names : list string) (cs : list node) : list node :=
  flat_map (fun c => if has_name names c then [] else [decompose_all names c]) cs.

(** ** Rich-text renderer

    [create_word_document] drives the document library; the document and
    the library calls are taken as they come.  Each call yields the document
    it leaves behind and tells whether it returned ([true]) or raised
    ([false]): after a call that raised, the bare [except] goes on to the
    next item with the document as the call left it. *)

(** The types for which a renderer has a branch. *)
Definition rendered (b : block) : bool :=
  existsb (String.eqb (type b)) ["title"; "h1"; "h2"; "h3"; "h4"; "paragraph"]%string.

Section RichText.

Variable document : Type.

(** [Document()] with the four margins of every section set (lines
    187-193). *)
Variable new_document : document.

(** [doc.add_heading(text, level)], [heading.alignment = CENTER] on the
    heading just added, [doc.add_paragraph()] and [doc.add_paragraph(text)]. *)
Variable add_heading : str -> nat -> document -> document * bool.
Variable center_heading : document -> document * bool.
Variable add_paragraph : option str -> document -> document * bool.

(** [doc.save(doc_io)] and [doc_io.seek(0)]: the bytes of the buffer. *)
Variable save : document -> list N.

(** One iteration of the loop, lines 196-214. *)
Definition word_item (doc : document) (item : block) : document :=
  let text := text item in
  if String.eqb (type item) "title" then
    let (doc, returned) := add_heading text 0 doc in
    if returned then
      let (doc, returned) := center_heading doc in
      if returned then (add_paragraph None doc).1 else doc
    else doc
  else if String.eqb (type item) "h1" then (add_heading text 1 doc).1
  else if String.eqb (type item) "h2" then (add_heading text 2 doc).1
  else if String.eqb (type item) "h3" then (add_heading text 3 doc).1
  else if String.eqb (type item) "h4" then (add_heading text 4 doc).1
  else if String.eqb (type item) "paragraph" then (add_paragraph (Some text) doc).1
  else doc.

(** [create_word_document] *)
Definition create_word_document (content_structure : list block) : list N :=
  save (foldl word_item new_document content_structure).

End RichText.

(** * Properties *)

(** ** Text normalizer *)

Example clean_text_collapses :
  clean_text (lit "  Hello" ++ [0x09; 0x0A; 0x00] ++ lit "world ") = lit "Hello world".
Proof. reflexivity. Qed.

(** C4, at [a], space, U+200B, space, [b]: the zero-width space is
    removed after the whitespace runs were collapsed, the two spaces around
    it stay, and a second normalization collapses them; [clean_text] is
    not idempotent there. *)
Theorem clean_text_not_idempotent :
  clean_text zero_width_sample = lit "a  b"
  /\ clean_text (clean_text zero_width_sample) = lit "a b"
  /\ clean_text (clean_text zero_width_sample) <> clean_text zero_width_sample.
Proof. vm_compute. repeat split; discriminate. Qed.

Lemma sub_spaces_from_spaced b u : spaced b (sub_spaces_from b u).
Proof.
  revert b. induction u as [|c u IH]; intros b; cbn; [exact I|].
  destruct (isspace c) eqn:Hc.
  - destruct b; [apply IH|]. cbn. auto.
  - cbn. rewrite Hc. apply IH.
Qed.

Lemma spaced_fixed b r : spaced b r -> sub_spaces_from b r = r.
Proof.
  revert b. induction r as [|c r IH]; intros b; cbn; [reflexivity|].
  destruct (isspace c).
  - intros (-> & -> & H). f_equal. auto.
  - intros H. f_equal. auto.
Qed.

Lemma spaced_weaken b r : spaced b r -> spaced false r.
Proof. destruct r as [|c r]; cbn; [auto|]. destruct (isspace c); tauto. Qed.

Lemma spaced_prefix b p t : spaced b (p ++ t) -> spaced b p.
Proof.
  revert b. induction p as [|c p IH]; intros b; cbn; [auto|].
  destruct (isspace c); [intros (? & ? & ?); eauto | eauto].
Qed.

Lemma spaced_lstrip b s : spaced b s -> spaced false (lstrip s).
Proof.
  revert b. induction s as [|c s IH]; intros b; cbn; [auto|].
  destruct (isspace c) eqn:Hc.
  - intros (_ & _ & H). eauto.
  - cbn. rewrite Hc. auto.
Qed.

Lemma spaced_no_nbsp b s : spaced b s -> Forall (fun c => c <> 0xA0) s.
Proof.
  revert b. induction s as [|c s IH]; intros b; cbn; [constructor|].
  destruct (isspace c) eqn:Hc.
  - intros (-> & _ & H). constructor; [discriminate | eauto].
  - intros H. constructor; [|eauto]. intros ->. discriminate.
Qed.

Lemma replace_char_fixed old new s :
  Forall (fun c => c <> old) s -> replace_char old new s = s.
Proof.
  unfold replace_char. induction 1 as [|c s Hc _ IH]; cbn; [reflexivity|].
  destruct (N.eqb_spec c old); [contradiction|]. cbn. now rewrite IH.
Qed.

Lemma lstrip_suffix s : exists t, s = t ++ lstrip s.
Proof.
  induction s as [|c s [t IH]]; cbn; [now exists []|].
  destruct (isspace c); [exists (c :: t); cbn; now rewrite <- IH | now exists []].
Qed.

Lemma lstrip_head s :
  match lstrip s with [] => True | c :: _ => isspace c = false end.
Proof.
  induction s as [|c s IH]; cbn; [exact I|].
  destruct (isspace c) eqn:Hc; [exact IH | exact Hc].
Qed.

Lemma rstrip_snoc s c :
  rstrip (s ++ [c]) = if isspace c then rstrip s else s ++ [c].
Proof.
  unfold rstrip. rewrite rev_app_distr. cbn.
  destruct (isspace c); [reflexivity|]. cbn. now rewrite rev_involutive.
Qed.

Lemma rstrip_prefix s : exists t, s = rstrip s ++ t.
Proof.
  induction s as [|c s [t IH]] using rev_ind; [now exists []|].
  rewrite rstrip_snoc. destruct (isspace c).
  - exists (t ++ [c]). rewrite app_assoc, <- IH. reflexivity.
  - exists []. now rewrite app_nil_r.
Qed.

Lemma rstrip_last s p c : rstrip s = p ++ [c] -> isspace c = false.
Proof.
  induction s as [|x s IH] using rev_ind.
  - cbn. intros H. destruct p; discriminate.
  - rewrite rstrip_snoc. destruct (isspace x) eqn:Hx; [exact IH|].
    intros [_ ->]%app_inj_tail. exact Hx.
Qed.

Lemma strip_trimmed s : trimmed (strip s).
Proof.
  unfold strip. split.
  - destruct (rstrip_prefix (lstrip s)) as [t E].
    pose proof (lstrip_head s) as H. rewrite E in H.
    destruct (rstrip (lstrip s)); [exact I | exact H].
  - intros p c. apply rstrip_last.
Qed.

Lemma trimmed_fixed s : trimmed s -> strip s = s.
Proof.
  intros [Hh Hl]. unfold strip.
  assert (E : lstrip s = s).
  { destruct s as [|c s]; [reflexivity|]. cbn. now rewrite Hh. }
  rewrite E. destruct s as [|c s _] using rev_ind; [reflexivity|].
  rewrite rstrip_snoc, (Hl s c eq_refl). reflexivity.
Qed.

Lemma Forall_lstrip (P : N -> Prop) s : Forall P s -> Forall P (lstrip s).
Proof.
  intros H. destruct (lstrip_suffix s) as [t E]. rewrite E in H.
  apply Forall_app in H. tauto.
Qed.

Lemma Forall_strip (P : N -> Prop) s : Forall P s -> Forall P (strip s).
Proof.
  intros H%Forall_lstrip. unfold strip.
  destruct (rstrip_prefix (lstrip s)) as [t E]. rewrite E in H.
  apply Forall_app in H. tauto.
Qed.

Lemma spaced_strip b s : spaced b s -> spaced false (strip s).
Proof.
  intros H%spaced_lstrip. unfold strip.
  destruct (rstrip_prefix (lstrip s)) as [t E]. rewrite E in H.
  eapply spaced_prefix, H.
Qed.

Lemma Forall_sub_control s :
  Forall (fun c => zero_width c = false) s -> Forall plain (sub_control s).
Proof.
  unfold sub_control. induction 1 as [|c s Hc _ IH]; cbn; [constructor|].
  destruct (is_control c) eqn:E; cbn; [assumption|].
  constructor; [split; assumption | assumption].
Qed.

Lemma Forall_sub_spaces b s :
  Forall plain s -> Forall plain (sub_spaces_from b s).
Proof.
  intros H. revert b. induction H as [|c s Hc _ IH]; intros b; cbn; [constructor|].
  destruct (isspace c); [destruct b|]; auto.
  constructor; [split; reflexivity | auto].
Qed.

Lemma sub_control_fixed s : Forall plain s -> sub_control s = s.
Proof.
  unfold sub_control. induction 1 as [|c s [Hc _] _ IH]; cbn; [reflexivity|].
  rewrite Hc. cbn. now rewrite IH.
Qed.

Lemma replace_special_fixed b s :
  Forall plain s -> spaced b s -> replace_special s = s.
Proof.
  intros Hp Hs. unfold replace_special.
  rewrite (replace_char_fixed 0xA0); [|eapply spaced_no_nbsp, Hs].
  rewrite (replace_char_fixed 0x200B).
  2:{ eapply Forall_impl; [exact Hp|]. intros c [_ Hz] ->. discriminate. }
  apply replace_char_fixed.
  eapply Forall_impl; [exact Hp|]. intros c [_ Hz] ->. discriminate.
Qed.

(** A text that is plain, spaced and trimmed is left as it is. *)
Lemma clean_text_fixed r :
  Forall plain r -> spaced false r -> trimmed r -> clean_text r = r.
Proof.
  intros Hp Hs Ht. unfold clean_text. destruct r as [|c r]; [reflexivity|].
  rewrite (sub_control_fixed _ Hp). unfold sub_spaces.
  rewrite (spaced_fixed _ _ Hs), (replace_special_fixed _ _ Hp Hs).
  apply trimmed_fixed, Ht.
Qed.

(** On a text without U+200B and U+FEFF the normalization is idempotent. *)
Lemma clean_text_idempotent_without_zero_width s :
  Forall (fun c => zero_width c = false) s ->
  clean_text (clean_text s) = clean_text s.
Proof.
  intros Hz. destruct s as [|c s]; [reflexivity|].
  unfold clean_text at 2 3. 
  set (v := sub_spaces (sub_control (c :: s))).
  assert (Hp : Forall plain v) by apply Forall_sub_spaces, Forall_sub_control, Hz.
  assert (Hs : spaced false v) by apply sub_spaces_from_spaced.
  rewrite (replace_special_fixed _ _ Hp Hs).
  apply clean_text_fixed.
  - apply Forall_strip, Hp.
  - eapply spaced_strip, Hs.
  - apply strip_trimmed.
Qed.

(** ** Content extractor on the scenario pages *)

(** C10: the end-to-end scenario yields the title, the heading and the
    paragraph, in that order; the three-character [div] is dropped. *)
Theorem acme_blocks : extract_content acme = Ok acme_result.
Proof. vm_compute. reflexivity. Qed.

(** C1, at a page whose meta description equals its title: both blocks are
    emitted with the same text, the description is not checked against
    [processed_texts]. *)
Theorem title_description_duplicate :
  extract_content same_title_description =
  Ok [Block "title" (lit "Acme Company Home");
      Block "paragraph" (lit "Acme Company Home")]
  /\ forall cs, extract_content same_title_description = Ok cs ->
                ~ NoDup (map text cs).
Proof.
  assert (E : extract_content same_title_description =
              Ok [Block "title" (lit "Acme Company Home");
                  Block "paragraph" (lit "Acme Company Home")])
    by (vm_compute; reflexivity).
  split; [exact E|].
  intros cs H. rewrite E in H. injection H as <-.
  intros Hnd. apply NoDup_cons_1_1 in Hnd. apply Hnd. cbn. left.
Qed.

(** C2, at a document with no [main], [article], matching [id] or [class],
    and no [body]: every [find] yields [None] and the call of [find_all] on
    it raises. *)
Theorem no_body_raises : extract_content no_body = AttributeError.
Proof. vm_compute. reflexivity. Qed.

(** ** The traversal loop *)

Lemma nonempty_len (s : str) : nonempty s = true <-> (0 < len s)%nat.
Proof. destruct s; cbn; split; intros; try lia; congruence. Qed.

Lemma has_name_node_name names e :
  has_name names e = true -> In (node_name e) names.
Proof.
  destruct e as [s|nm a cs]; cbn; [discriminate|].
  intros H. apply existsb_exists in H as (x & Hx & E).
  apply String.eqb_eq in E. now subst.
Qed.

Lemma visit_cases st element : visit_spec st element (visit st element).
Proof.
  unfold visit.
  set (t := clean_text (get_text_strip element)).
  destruct (nonempty t) eqn:Hne; cbn [negb orb].
  2:{ apply visit_skip. left. fold t.
      destruct t; [cbn; lia | discriminate]. }
  destruct (Nat.ltb_spec (len t) 10); cbn [orb].
  { apply visit_skip. left. exact H. }
  destruct (bool_decide_reflect (t ∈ st.2)).
  { apply visit_skip. right. left. assumption. }
  destruct (Nat.ltb_spec (len t) 20); cbn [andb].
  - destruct (has_name ["a"; "span"; "div"]%string element) eqn:Hs.
    + apply visit_skip. right. right. fold t. auto.
    + destruct (has_name headings element) eqn:Hh.
      * apply visit_heading; auto using has_name_node_name.
      * destruct (Nat.ltb_spec 30 (len t)); [lia|].
        apply visit_drop; fold t; auto; lia.
  - destruct (has_name headings element) eqn:Hh.
    + apply visit_heading; auto using has_name_node_name.
    + destruct (Nat.ltb_spec 30 (len t)).
      * apply visit_paragraph; auto.
      * apply visit_drop; fold t; auto; lia.
Qed.

Lemma foldl_visit_snoc st l e :
  foldl visit st (l ++ [e]) = visit (foldl visit st l) e.
Proof. apply foldl_snoc. Qed.

(** The blocks of the traversal are appended to those of the header and obey
    the length policy of the loop. *)
Lemma traverse_blocks l st :
  exists body, (foldl visit st l).1 = st.1 ++ body /\ Forall traversal_ok body.
Proof.
  induction l as [|e l IH] using rev_ind.
  - exists []. cbn. split; [now rewrite app_nil_r | constructor].
  - rewrite foldl_visit_snoc. destruct IH as (body & E & Hb).
    destruct (visit_cases (foldl visit st l) e); cbn [fst].
    + exists body. auto.
    + exists (body ++ [Block (node_name e) t]). rewrite E, <- app_assoc. split; [reflexivity|].
      apply Forall_app. split; [assumption|]. constructor; [|constructor].
      split; cbn; [|assumption].
      intros Hn. rewrite Hn in H1. cbn in H1. intuition discriminate.
    + exists (body ++ [Block "paragraph" t]). rewrite E, <- app_assoc. split; [reflexivity|].
      apply Forall_app. split; [assumption|]. constructor; [|constructor].
      split; cbn; [discriminate | unfold len in *; lia].
    + exists body. auto.
Qed.

(** [processed_texts] after a traversal: what it held before, and the text of
    every visited element that passed the length rules. *)
Lemma traverse_processed l st t :
  t ∈ (foldl visit st l).2 <->
  t ∈ st.2 \/ exists e, In e l /\ passes_length_rules e /\ clean_text (get_text_strip e) = t.
Proof.
  induction l as [|e l IH] using rev_ind.
  - cbn. split; [auto | intros [H|(e & [] & _)]; exact H].
  - rewrite foldl_visit_snoc.
    assert (Hsplit : forall P : node -> Prop,
               (exists x, In x (l ++ [e]) /\ P x) <-> (exists x, In x l /\ P x) \/ P e).
    { intros P. split.
      - intros (x & Hx & HP). apply in_app_or in Hx as [Hx|[<-|[]]]; eauto.
      - intros [(x & Hx & HP)|HP]; [exists x|exists e]; split; auto; apply in_or_app; cbn; auto. }
    rewrite (Hsplit (fun e => passes_length_rules e /\ clean_text (get_text_strip e) = t)).
    unfold passes_length_rules.
    destruct (visit_cases (foldl visit st l) e); cbn [snd];
      try (rewrite elem_of_union, elem_of_singleton).
    + rewrite IH. split; [tauto|].
      intros [?|[?|((Hlen & Hns) & <-)]]; [tauto..|].
      fold t0 in Hlen, Hns.
      destruct H as [H|[H|H]]; [lia | apply IH in H; exact H | tauto].
    + rewrite IH. fold t0. split.
      * intros [->|?]; [|tauto]. right. right. split; [split; [assumption|]|reflexivity].
        intros [_ Hs]. apply has_name_node_name in Hs.
        cbn in H1, Hs. intuition congruence.
      * intros [?|[?|(_ & <-)]]; tauto.
    + rewrite IH. fold t0. split.
      * intros [->|?]; [|tauto]. right. right. split; [split; [lia|lia]|reflexivity].
      * intros [?|[?|(_ & <-)]]; tauto.
    + rewrite IH. fold t0. split.
      * intros [->|?]; [|tauto]. right. right. split; [split; [lia|]|reflexivity].
        intros [? Hs]. destruct H2; [lia|congruence].
      * intros [?|[?|(_ & <-)]]; tauto.
Qed.

(** Every text the traversal emits is in [processed_texts]. *)
Lemma traverse_emitted l st :
  (forall b, In b st.1 -> text b ∈ st.2) ->
  forall b, In b (foldl visit st l).1 -> text b ∈ (foldl visit st l).2.
Proof.
  intros H0. induction l as [|e l IH] using rev_ind; [exact H0|].
  rewrite foldl_visit_snoc.
  destruct (visit_cases (foldl visit st l) e); cbn [fst snd]; auto;
    intros b Hb; try apply in_app_or in Hb as [Hb|[<-|[]]];
    solve [ apply elem_of_union_r; auto
          | apply elem_of_union_l, elem_of_singleton; reflexivity ].
Qed.

(** No text is emitted twice by the traversal, nor after the header emitted
    it. *)
Lemma traverse_nodup l st :
  (forall b, In b st.1 -> text b ∈ st.2) -> NoDup (map text st.1) ->
  NoDup (map text (foldl visit st l).1).
Proof.
  intros H0 N0. induction l as [|e l IH] using rev_ind; [exact N0|].
  pose proof (traverse_emitted l st H0) as Hin.
  rewrite foldl_visit_snoc.
  assert (Hstep : forall ty t,
             t ∉ (foldl visit st l).2 ->
             NoDup (map text ((foldl visit st l).1 ++ [Block ty t]))).
  { intros ty t Hnot. rewrite map_app. apply NoDup_app.
    split; [assumption|]. split; [|apply NoDup_singleton].
    intros x Hx [<-|[]]%list_elem_of_In. cbn in Hx.
    apply list_elem_of_In, in_map_iff in Hx as (b & <- & Hb). apply Hnot. auto. }
  destruct (visit_cases (foldl visit st l) e); cbn [fst snd]; auto.
Qed.

(** ** Title and description *)

Lemma title_step_cases soup :
  title_step soup ([], ∅) = ([], ∅)
  \/ exists title,
      find (has_name ["title"%string]) soup = Some title
      /\ (3 < len (clean_text (get_text title)))%nat
      /\ title_step soup ([], ∅) =
         ([Block "title" (clean_text (get_text title))],
          {[clean_text (get_text title)]} ∪ ∅).
Proof.
  unfold title_step.
  destruct (find (has_name ["title"%string]) soup) as [title|]; [|now left].
  destruct (nonempty (clean_text (get_text title))); cbn [andb]; [|now left].
  destruct (Nat.ltb_spec 3 (len (clean_text (get_text title)))); [|now left].
  right. exists title. auto.
Qed.

Lemma meta_step_cases soup st :
  meta_step soup st = st
  \/ exists t, (10 < len t)%nat
      /\ meta_step soup st = (st.1 ++ [Block "paragraph" t], {[t]} ∪ st.2).
Proof.
  unfold meta_step.
  destruct (find is_meta_description soup) as [m|]; [|now left].
  destruct (get_attr "content" m) as [c|]; [|now left].
  destruct (nonempty c); [|now left].
  destruct (nonempty (clean_text c)); cbn [andb]; [|now left].
  destruct (Nat.ltb_spec 10 (len (clean_text c))); [|now left].
  right. exists (clean_text c). auto.
Qed.

Lemma header_blocks soup : Forall header_ok (header soup).1.
Proof.
  unfold header.
  assert (Ht : Forall header_ok (title_step soup ([], ∅)).1).
  { destruct (title_step_cases soup) as [->|(title & _ & Hlen & ->)]; cbn [fst].
    - constructor.
    - constructor; [|constructor]. left. split; [reflexivity | exact Hlen]. }
  destruct (meta_step_cases soup (title_step soup ([], ∅))) as [->|(t & Hlen & ->)];
    [assumption|].
  cbn [fst]. apply Forall_app. split; [assumption|].
  constructor; [|constructor]. right. split; [reflexivity | exact Hlen].
Qed.

(** After the title and the description, [processed_texts] holds exactly
    the emitted texts. *)
Lemma header_processed soup : dedup_tracks_emitted (header soup).
Proof.
  unfold header.
  assert (Ht : dedup_tracks_emitted (title_step soup ([], ∅))).
  { destruct (title_step_cases soup) as [->|(title & _ & _ & ->)]; intros t; cbn.
    - rewrite elem_of_empty, elem_of_nil. tauto.
    - rewrite elem_of_union, elem_of_singleton, elem_of_empty, list_elem_of_singleton.
      tauto. }
  destruct (meta_step_cases soup (title_step soup ([], ∅))) as [->|(t & _ & ->)];
    [assumption|].
  intros x. cbn [fst snd]. rewrite elem_of_union, elem_of_singleton, map_app, elem_of_app.
  rewrite (Ht x). cbn. rewrite list_elem_of_singleton. tauto.
Qed.

(** When the first [title] element has a normalized text longer than 3, the
    header starts with its block and holds no other title block. *)
Lemma header_title soup title :
  find (has_name ["title"%string]) soup = Some title ->
  (3 < len (clean_text (get_text title)))%nat ->
  exists rest,
    (header soup).1 = Block "title" (clean_text (get_text title)) :: rest
    /\ Forall (fun b => type b <> "title"%string) rest.
Proof.
  intros Hf Hlen. unfold header.
  assert (E : title_step soup ([], ∅) =
              ([Block "title" (clean_text (get_text title))],
               {[clean_text (get_text title)]} ∪ ∅)).
  { unfold title_step. rewrite Hf.
    destruct (nonempty_len (clean_text (get_text title))) as [_ ->]; [|lia].
    destruct (Nat.ltb_spec 3 (len (clean_text (get_text title)))); [reflexivity|lia]. }
  rewrite E.
  destruct (meta_step_cases soup
              ([Block "title" (clean_text (get_text title))],
               {[clean_text (get_text title)]} ∪ ∅)) as [->|(t & _ & ->)]; cbn [fst].
  - exists []. split; [reflexivity|constructor].
  - exists [Block "paragraph" t]. split; [reflexivity|].
    constructor; [|constructor]. cbn. discriminate.
Qed.

Lemma extract_content_ok parsed cs :
  extract_content parsed = Ok cs ->
  exists root,
    main_content (decompose_all unwanted parsed) = Some root
    /\ cs = (foldl visit (header (decompose_all unwanted parsed))
                   (find_all candidates root)).1.
Proof.
  unfold extract_content.
  destruct (main_content (decompose_all unwanted parsed)) as [root|]; [|discriminate].
  intros [= <-]. eauto.
Qed.

(** C7: the result is the header blocks followed by the blocks of the
    traversal; a title block is longer than 3, the description paragraph
    longer than 10, every block of the traversal has length at least 10, and
    no text is empty. *)
Theorem block_lengths parsed cs :
  extract_content parsed = Ok cs ->
  exists body,
    cs = (header (decompose_all unwanted parsed)).1 ++ body
    /\ Forall header_ok (header (decompose_all unwanted parsed)).1
    /\ Forall traversal_ok body
    /\ Forall (fun b => text b <> [] /\
                 if String.eqb (type b) "title" then (3 < len (text b))%nat
                 else (10 <= len (text b))%nat) cs.
Proof.
  intros (root & _ & ->)%extract_content_ok.
  destruct (traverse_blocks (find_all candidates root)
              (header (decompose_all unwanted parsed))) as (body & E & Hb).
  pose proof (header_blocks (decompose_all unwanted parsed)) as Hh.
  exists body. rewrite E. repeat split; try assumption.
  apply Forall_app. split.
  - eapply Forall_impl; [exact Hh|]. intros b [[Ht Hl]|[Ht Hl]]; rewrite Ht; cbn;
      (split; [destruct (text b); [cbn in Hl; lia | discriminate] | unfold len in *; lia]).
  - eapply Forall_impl; [exact Hb|]. intros b [Ht Hl].
    destruct (String.eqb_spec (type b) "title"); [contradiction|].
    split; [destruct (text b); [cbn in Hl; lia | discriminate] | assumption].
Qed.

(** C5, as amended: when the first [title] element that is left after the
    removal of the unwanted elements has a normalized text longer than 3, the
    returned list starts with the title block carrying that text and no
    later block has the type [title]. *)
Theorem title_first parsed cs title :
  find (has_name ["title"%string]) (decompose_all unwanted parsed) = Some title ->
  (3 < len (clean_text (get_text title)))%nat ->
  extract_content parsed = Ok cs ->
  exists rest,
    cs = Block "title" (clean_text (get_text title)) :: rest
    /\ Forall (fun b => type b <> "title"%string) rest.
Proof.
  intros Hf Hlen (root & _ & ->)%extract_content_ok.
  destruct (header_title _ _ Hf Hlen) as (rest & E & Hr).
  destruct (traverse_blocks (find_all candidates root)
              (header (decompose_all unwanted parsed))) as (body & E' & Hb).
  exists (rest ++ body). rewrite E', E. split; [reflexivity|].
  apply Forall_app. split; [assumption|].
  eapply Forall_impl; [exact Hb|]. intros b [Ht _]. exact Ht.
Qed.

(** C5, as stated, fails on a page whose only [title] element stands inside
    an [svg]: the element is in the document and its normalized text is
    longer than 3, but it is removed with the [svg] before the title is
    looked up, and no title block is returned. *)
Lemma svg_title_not_emitted :
  In logo_title (descendants logo_page)
  /\ has_name ["title"%string] logo_title = true
  /\ (3 < len (clean_text (get_text logo_title)))%nat
  /\ find (has_name ["title"%string]) (decompose_all unwanted logo_page) = None
  /\ extract_content logo_page =
     Ok [Block "paragraph"
           (lit "Acme builds widgets for the modern era, delivering quality.")].
Proof.
  split; [cbn; tauto|].
  split; [reflexivity|].
  split; [vm_compute; lia|].
  split; vm_compute; reflexivity.
Qed.

(** ** The dedup set *)

(** The three outcomes of one visit, by the dedup check and the length
    rules. *)
Lemma visit_rejects st element :
  clean_text (get_text_strip element) ∈ st.2 -> visit st element = st.
Proof.
  intros Hin. unfold visit.
  rewrite (bool_decide_eq_true_2 _ Hin), orb_true_r. reflexivity.
Qed.

Lemma visit_fails_rules st element :
  ~ passes_length_rules element -> visit st element = st.
Proof.
  intros Hno. unfold visit, passes_length_rules in *.
  set (t := clean_text (get_text_strip element)) in *.
  destruct (nonempty t) eqn:Hne; cbn [negb orb]; [|reflexivity].
  destruct (Nat.ltb_spec (len t) 10); cbn [orb]; [reflexivity|].
  destruct (bool_decide (t ∈ st.2)); [reflexivity|].
  destruct (Nat.ltb_spec (len t) 20); cbn [andb].
  - destruct (has_name ["a"; "span"; "div"]%string element) eqn:Hs; [reflexivity|].
    exfalso. apply Hno. split; [assumption|]. intros [_ ?]. discriminate.
  - exfalso. apply Hno. split; [assumption|]. intros [? _]. lia.
Qed.

Lemma visit_admits st element :
  clean_text (get_text_strip element) ∉ st.2 ->
  passes_length_rules element ->
  visit st element =
  (if has_name headings element || (30 <? len (clean_text (get_text_strip element)))%nat
   then st.1 ++ [block_of element] else st.1,
   {[clean_text (get_text_strip element)]} ∪ st.2).
Proof.
  intros Hnot [Hlen Hrule]. unfold visit, block_of.
  set (t := clean_text (get_text_strip element)) in *.
  destruct (nonempty_len t) as [_ ->]; [|unfold len in *; lia].
  destruct (Nat.ltb_spec (len t) 10); [lia|].
  rewrite (bool_decide_eq_false_2 _ Hnot). cbn [negb orb].
  assert (E : ((len t <? 20)%nat
               && has_name ["a"; "span"; "div"]%string element) = false).
  { destruct (Nat.ltb_spec (len t) 20); [|reflexivity].
    destruct (has_name ["a"; "span"; "div"]%string element); [|reflexivity].
    exfalso. apply Hrule. auto. }
  rewrite E. destruct (has_name headings element); [reflexivity|].
  cbn [orb]. destruct (30 <? len t)%nat; reflexivity.
Qed.

(** C3, as amended: at every point of the traversal a text is in
    [processed_texts] exactly when it is the text of the title or description
    block or the normalized text of an earlier element that passed the length
    rules, whether or not a block was emitted for that element, and every
    emitted text is in the set.  The next element is rejected, with no block
    and no change of the set, when its text is in the set; when it is not
    and the element passes the length rules, the text joins the set and only
    then the block is decided: it is appended for a heading and for a text
    longer than 30, and for no other element.  So an element whose text is
    that of an earlier element that passed the length rules is rejected, even
    when that earlier element was dropped. *)
Theorem processed_texts_history (soup : node) (visited : list node) (element : node) :
  let st := foldl visit (header soup) visited in
  let t := clean_text (get_text_strip element) in
  (forall x,
      x ∈ st.2 <->
      x ∈ map text (header soup).1
      \/ exists e, In e visited /\ passes_length_rules e
                   /\ clean_text (get_text_strip e) = x)
  /\ (forall b, In b st.1 -> text b ∈ st.2)
  /\ (t ∈ st.2 -> visit st element = st)
  /\ (~ passes_length_rules element -> visit st element = st)
  /\ (t ∉ st.2 -> passes_length_rules element ->
      visit st element =
      (if has_name headings element || (30 <? len t)%nat
       then st.1 ++ [block_of element] else st.1,
       {[t]} ∪ st.2))
  /\ (forall e, In e visited -> passes_length_rules e ->
                clean_text (get_text_strip e) = t ->
                visit st element = st).
Proof.
  cbn zeta.
  assert (Hset : forall x,
             x ∈ (foldl visit (header soup) visited).2 <->
             x ∈ map text (header soup).1
             \/ exists e, In e visited /\ passes_length_rules e
                          /\ clean_text (get_text_strip e) = x).
  { intros x. rewrite traverse_processed, (header_processed soup x). reflexivity. }
  split; [exact Hset|]. split.
  { apply traverse_emitted. intros b Hb.
    apply (header_processed soup). apply list_elem_of_In, in_map. exact Hb. }
  split; [apply visit_rejects|].
  split; [apply visit_fails_rules|].
  split; [apply visit_admits|].
  intros e He Hp Et. apply visit_rejects, Hset. right. eauto.
Qed.

(** On the page of the short paragraph and the heading: once the paragraph
    was visited, and dropped, the heading is rejected. *)
Lemma processed_texts_history_witness :
  visit (foldl visit (header (decompose_all unwanted (mission true))) [mission_p])
        mission_h2
  = foldl visit (header (decompose_all unwanted (mission true))) [mission_p].
Proof.
  apply (processed_texts_history (decompose_all unwanted (mission true))
           [mission_p] mission_h2) with (e := mission_p).
  - now left.
  - split; [vm_compute; lia|]. intros [_ H]. vm_compute in H. discriminate.
  - reflexivity.
Defined.

(** C3, as stated, fails on a short paragraph followed by a heading with the
    same text: the paragraph is dropped, yet its text is in the set, and the
    heading, which is emitted when it stands alone, is rejected. *)
Lemma dropped_text_suppresses_heading :
  (exists root, main_content (decompose_all unwanted (mission true)) = Some root
                /\ find_all candidates root = [mission_p; mission_h2])
  /\ (foldl visit (header (decompose_all unwanted (mission true))) [mission_p]).1 = []
  /\ clean_text (get_text_strip mission_h2)
     ∈ (foldl visit (header (decompose_all unwanted (mission true))) [mission_p]).2
  /\ ~ dedup_tracks_emitted
        (foldl visit (header (decompose_all unwanted (mission true))) [mission_p])
  /\ extract_content (mission true) = Ok []
  /\ extract_content (mission false) = Ok [Block "h2" (lit "Our Mission Here")].
Proof.
  assert (Hin : clean_text (get_text_strip mission_h2)
                ∈ (foldl visit (header (decompose_all unwanted (mission true)))
                     [mission_p]).2).
  { apply traverse_processed. right. exists mission_p.
    split; [now left|]. split; [|reflexivity].
    split; [vm_compute; lia|]. intros [_ H]. vm_compute in H. discriminate. }
  assert (Hnil : (foldl visit (header (decompose_all unwanted (mission true)))
                    [mission_p]).1 = [])
    by (vm_compute; reflexivity).
  split; [|split; [|split; [|split; [|split]]]].
  - eexists. split; vm_compute; reflexivity.
  - exact Hnil.
  - exact Hin.
  - intros H. apply H in Hin. rewrite Hnil in Hin. cbn in Hin.
    apply elem_of_nil in Hin. exact Hin.
  - vm_compute. reflexivity.
  - vm_compute. reflexivity.
Qed.

(** ** Witnesses on the scenario page *)

Lemma block_lengths_witness :
  exists body,
    acme_result = (header (decompose_all unwanted acme)).1 ++ body
    /\ Forall header_ok (header (decompose_all unwanted acme)).1
    /\ Forall traversal_ok body
    /\ Forall (fun b => text b <> [] /\
                 if String.eqb (type b) "title" then (3 < len (text b))%nat
                 else (10 <= len (text b))%nat) acme_result.
Proof. apply (block_lengths acme acme_result). vm_compute. reflexivity. Defined.

Lemma title_first_witness :
  exists rest,
    acme_result = Block "title" (clean_text (get_text (el "title" [txt "Acme Co"]))) :: rest
    /\ Forall (fun b => type b <> "title"%string) rest.
Proof.
  apply (title_first acme acme_result (el "title" [txt "Acme Co"])).
  - vm_compute. reflexivity.
  - vm_compute. lia.
  - vm_compute. reflexivity.
Defined.

(** ** Content root *)

Lemma find_first (p : node -> bool) soup r :
  find p soup = Some r <-> first_in_document p soup r.
Proof.
  unfold find, first_in_document. induction (descendants soup) as [|d l IH]; cbn.
  - split; [discriminate|]. intros (b & a & E & _). destruct b; discriminate.
  - destruct (p d) eqn:Hp.
    + split.
      * intros [= <-]. exists [], l. cbn.
        split; [reflexivity|]. split; [assumption|]. intros ? [].
      * intros ([|x b] & a & E & Hr & Hb); cbn in E; injection E as E1 E2; subst.
        -- reflexivity.
        -- rewrite (Hb _ (or_introl eq_refl)) in Hp. discriminate.
    + rewrite IH. split.
      * intros (b & a & -> & Hr & Hb). exists (d :: b), a. cbn.
        split; [reflexivity|]. split; [assumption|]. intros x [<-|Hx]; auto.
      * intros ([|x b] & a & E & Hr & Hb); cbn in E; injection E as E1 E2; subst.
        -- congruence.
        -- exists b, a. split; [reflexivity|]. split; [assumption|].
           intros y Hy. apply Hb. now right.
Qed.

Lemma find_nothing (p : node -> bool) soup :
  find p soup = None <-> no_match soup p.
Proof.
  unfold find, no_match. split.
  - intros H d Hd. now apply (find_none _ _ H).
  - intros H. destruct (List.find p (descendants soup)) as [x|] eqn:E; [|reflexivity].
    apply find_some in E as [Hx Hp]. rewrite (H x Hx) in Hp. discriminate.
Qed.

Lemma first_match_root chain soup r :
  first_match chain soup = r <-> chain_root chain soup r.
Proof.
  revert r. induction chain as [|s chain IH]; intros r; cbn [first_match].
  - destruct r as [r|]; cbn.
    + split; [discriminate|]. intros ([|? ?] & ? & ? & E & _); discriminate.
    + split; [constructor | reflexivity].
  - destruct (find s soup) as [e|] eqn:Hf.
    + apply find_first in Hf as Hfirst. destruct r as [r|]; cbn.
      * split.
        -- intros [= <-]. exists [], s, chain. split; [reflexivity|].
           split; [constructor | assumption].
        -- intros ([|s' earlier] & sel & later & E & Hno & Hr); injection E as <- El.
           ++ apply find_first in Hr. congruence.
           ++ apply Forall_cons_1 in Hno as [Hno _]. apply find_nothing in Hno. congruence.
      * split; [discriminate|]. intros Hno.
        apply Forall_cons_1 in Hno as [Hno _]. apply find_nothing in Hno. congruence.
    + apply find_nothing in Hf as Hno. rewrite IH. destruct r as [r|]; cbn.
      * split.
        -- intros (earlier & sel & later & -> & He & Hr).
           exists (s :: earlier), sel, later. split; [reflexivity|].
           split; [constructor; assumption | assumption].
        -- intros ([|s' earlier] & sel & later & E & He & Hr); injection E as <- El.
           ++ apply find_first in Hr. congruence.
           ++ exists earlier, sel, later. split; [assumption|].
              apply Forall_cons_1 in He as [_ He]. auto.
      * split; [intros; constructor; assumption|].
        intros H. apply Forall_cons_1 in H as [_ H]. exact H.
Qed.

Lemma main_content_first_match soup :
  main_content soup = first_match root_selectors soup.
Proof.
  unfold main_content, root_selectors, or_else. cbn [first_match].
  repeat match goal with
         | |- context [find ?p soup] => destruct (find p soup); try reflexivity
         end.
Qed.

(** [extract_content] raises exactly when no selector of the chain matches
    anything, and returns a list otherwise. *)
Lemma extract_content_raises parsed :
  extract_content parsed = AttributeError
  <-> Forall (no_match (decompose_all unwanted parsed)) root_selectors.
Proof.
  unfold extract_content.
  pose proof (first_match_root root_selectors (decompose_all unwanted parsed) None) as H.
  cbn [chain_root] in H. rewrite <- H, <- main_content_first_match. clear H.
  destruct (main_content (decompose_all unwanted parsed)); split; congruence.
Qed.

Lemma extract_content_returns parsed root :
  main_content (decompose_all unwanted parsed) = Some root ->
  exists cs, extract_content parsed = Ok cs.
Proof. unfold extract_content. intros ->. eauto. Qed.

Example blank_page_empty : extract_content blank_page = Ok [].
Proof. vm_compute. reflexivity. Qed.

(** C8: the root is what the chain [main], [article], matching [id],
    matching [class], [body] gives when it is evaluated in this order and the
    first match, in document order, of the first matching selector is
    taken. *)
Theorem main_content_chain (soup : node) :
  main_content soup = first_match root_selectors soup
  /\ forall r, main_content soup = r <-> chain_root root_selectors soup r.
Proof.
  split; [apply main_content_first_match|].
  intros r. rewrite main_content_first_match. apply first_match_root.
Qed.

(** ** Plain-text renderer *)

Lemma text_lines_flat_map upper cs :
  text_lines upper cs = flat_map (render_item upper) cs.
Proof.
  unfold text_lines.
  enough (H : forall acc,
             foldl (fun text_content item => text_content ++ render_item upper item) acc cs
             = acc ++ flat_map (render_item upper) cs) by apply (H []).
  induction cs as [|b cs IH]; intros acc; cbn.
  - now rewrite app_nil_r.
  - rewrite IH. now rewrite <- app_assoc.
Qed.

Lemma text_lines_app upper cs1 b cs2 :
  text_lines upper (cs1 ++ b :: cs2)
  = text_lines upper cs1 ++ render_item upper b ++ text_lines upper cs2.
Proof. rewrite !text_lines_flat_map, flat_map_app. reflexivity. Qed.

(** C6, as amended: in the plain-text output a heading of level 1 to 4 is a
    blank line, as many hashes as its level, a space and the text, and a
    blank line; a heading of level 5 or 6 contributes nothing, the output is
    that of the list without it. *)
Theorem plain_text_headings (upper : str -> str) (level : nat) (t : str)
    (cs1 cs2 : list block) :
  (1 <= level <= 4 ->
   text_lines upper (cs1 ++ Block (heading_type level) t :: cs2)
   = text_lines upper cs1 ++ heading_lines level t ++ text_lines upper cs2)%nat
  /\ (5 <= level <= 6 ->
      create_text_file upper (cs1 ++ Block (heading_type level) t :: cs2)
      = create_text_file upper (cs1 ++ cs2))%nat.
Proof.
  split; intros Hl.
  - rewrite text_lines_app. f_equal. f_equal.
    assert (level = 1 \/ level = 2 \/ level = 3 \/ level = 4)%nat
      as [->|[->|[->| ->]]] by lia; reflexivity.
  - unfold create_text_file. f_equal.
    rewrite text_lines_app, !text_lines_flat_map, flat_map_app.
    assert (level = 5 \/ level = 6)%nat as [->| ->] by lia; reflexivity.
Qed.

Lemma plain_text_headings_witness :
  (1 <= 5 <= 4 ->
   text_lines (fun s => s) ([] ++ Block (heading_type 5) (lit "Fifth level") :: [])
   = text_lines (fun s => s) [] ++ heading_lines 5 (lit "Fifth level")
     ++ text_lines (fun s => s) [])%nat
  /\ (5 <= 5 <= 6 ->
      create_text_file (fun s => s) ([] ++ Block (heading_type 5) (lit "Fifth level") :: [])
      = create_text_file (fun s => s) ([] ++ []))%nat.
Proof. exact (plain_text_headings (fun s => s) 5 (lit "Fifth level") [] []). Defined.

(** C6, as stated, fails on a block of type [h5]: the renderer writes no
    line for it, where the claim asks for the heading lines with five
    hashes. *)
Lemma heading5_not_rendered :
  type fifth_level = heading_type 5
  /\ text_lines (fun s => s) [fifth_level] = []
  /\ create_text_file (fun s => s) [fifth_level] = []
  /\ text_lines (fun s => s) [fifth_level] <> heading_lines 5 (text fifth_level).
Proof. vm_compute. repeat split. discriminate. Qed.

(** ** Browser session *)

Module FetchFacts.
Import Fetch.

Ltac run_call :=
  match goal with
  | |- context [raises ?b ?n] => destruct (raises b n) eqn:?; cbn
  end.

Ltac settle :=
  solve [ left; apply (bool_decide_unpack _); vm_compute; exact I
        | right; eexists; split; [reflexivity|];
          split; [reflexivity|]; split; reflexivity ].

(** On every path [quit] is called on the browser that was started, except
    when the script of [setup_driver] raises: then [driver] was never
    assigned, and the run ends with the browser started and not quit. *)
Lemma teardown_unless_setup_script_fails (progress_callback : bool) (b : browser) :
  let w := (fetch_with_selenium progress_callback b start).2 in
  torn_down (trace w)
  \/ exists d,
      last (trace w) = Some (HideWebdriverFlag d, false)
      /\ driver w = None
      /\ started (trace w) = [d]
      /\ quit_called (trace w) = [].
Proof.
  destruct progress_callback;
    cbv [fetch_with_selenium setup_driver report try_finally try_except
         mbind mret M_bind M_ret bind ret do raise assign_driver read_driver
         ask start trace driver snd];
    cbn; repeat run_call; settle.
Qed.

(** A run in which no call raises returns the page and ends with [quit];
    a run whose wait for the body times out raises after [quit]. *)
Example fetch_success :
  fetch_with_selenium false (cooperative (fun _ => false)) start
  = (Returned (lit "<html></html>", lit "Acme"),
     World [(ChromeWithService, true); (HideWebdriverFlag 0, true);
            (Get 0, true); (WaitForBody 0, true); (Sleep 5, true);
            (ScrollTo 0 1, true); (Sleep 2, true); (ScrollTo 0 2, true);
            (Sleep 2, true); (ScrollTo 0 3, true); (Sleep 1, true);
            (PageSource 0, true); (Title 0, true); (Quit 0, true)]
           (Some 0%nat)).
Proof. vm_compute. reflexivity. Qed.

Example fetch_timeout :
  fetch_with_selenium true (cooperative (fun i => Nat.eqb i 6)) start
  = (Raised,
     World [(ProgressCallback 10, true); (ChromeWithService, true);
            (HideWebdriverFlag 1, true); (ProgressCallback 30, true);
            (Get 1, true); (ProgressCallback 50, true);
            (WaitForBody 1, false); (Quit 1, true)]
           (Some 1%nat)).
Proof. vm_compute. reflexivity. Qed.

(** C9, at a browser that starts and whose first script raises: the call
    ends with the exception, [driver] is still [None], and [quit] was not
    called on the started browser. *)
Theorem browser_left_running :
  fetch_with_selenium false failing_setup start
  = (Raised, World [(ChromeWithService, true); (HideWebdriverFlag 0, false)] None)
  /\ started [(ChromeWithService, true); (HideWebdriverFlag 0, false)] = [0%nat]
  /\ quit_called [(ChromeWithService, true); (HideWebdriverFlag 0, false)] = []
  /\ ~ torn_down [(ChromeWithService, true); (HideWebdriverFlag 0, false)].
Proof.
  repeat split; try (vm_compute; reflexivity).
  apply (bool_decide_eq_false_1 _). vm_compute. reflexivity.
Qed.

End FetchFacts.

(** * Further properties of the normalizer *)

Lemma Forall_replace_char (P : N -> Prop) old new s :
  Forall P s -> Forall P new -> Forall P (replace_char old new s).
Proof.
  intros Hs Hn. unfold replace_char. induction Hs as [|c s Hc _ IH]; cbn; [constructor|].
  destruct (c =? old).
  - apply Forall_app. split; assumption.
  - constructor; assumption.
Qed.

Lemma replace_char_removes old new s :
  Forall (fun c => c <> old) new ->
  Forall (fun c => c <> old) (replace_char old new s).
Proof.
  intros Hn. unfold replace_char. induction s as [|c s IH]; cbn; [constructor|].
  destruct (N.eqb_spec c old).
  - apply Forall_app. split; assumption.
  - constructor; assumption.
Qed.

Lemma sub_control_no_control s :
  Forall (fun c => is_control c = false) (sub_control s).
Proof.
  unfold sub_control. induction s as [|c s IH]; cbn; [constructor|].
  destruct (is_control c) eqn:E; cbn; [assumption|]. constructor; assumption.
Qed.

Lemma sub_spaces_chars b u :
  Forall (fun c => is_control c = false) u ->
  Forall (fun c => is_control c = false /\ (isspace c = true -> c = 0x20))
         (sub_spaces_from b u).
Proof.
  intros H. revert b. induction H as [|c u Hc _ IH]; intros b; cbn; [constructor|].
  destruct (isspace c) eqn:Hs.
  - destruct b; [apply IH|]. constructor; [|apply IH]. split; reflexivity.
  - constructor; [|apply IH]. split; [assumption|]. congruence.
Qed.

Lemma clean_text_clean_chars (s : str) : Forall clean_char (clean_text s).
Proof.
  destruct s as [|c0 s]; [constructor|]. unfold clean_text.
  apply Forall_strip. set (v := sub_spaces (sub_control (c0 :: s))).
  assert (Hv : Forall (fun c => is_control c = false /\ (isspace c = true -> c = 0x20)) v)
    by apply sub_spaces_chars, sub_control_no_control.
  unfold replace_special.
  set (w := replace_char 0xA0 [0x20] v).
  assert (Hw : Forall (fun c => is_control c = false /\ (isspace c = true -> c = 0x20)) w).
  { apply Forall_replace_char; [exact Hv|]. constructor; [|constructor].
    split; reflexivity. }
  assert (H1 : Forall (fun c => c <> 0x200B)
                 (replace_char 0xFEFF [] (replace_char 0x200B [] w))).
  { apply Forall_replace_char; [|constructor]. apply replace_char_removes. constructor. }
  assert (H2 : Forall (fun c => c <> 0xFEFF)
                 (replace_char 0xFEFF [] (replace_char 0x200B [] w)))
    by (apply replace_char_removes; constructor).
  assert (H3 : Forall (fun c => is_control c = false /\ (isspace c = true -> c = 0x20))
                 (replace_char 0xFEFF [] (replace_char 0x200B [] w)))
    by (apply Forall_replace_char;
        [apply Forall_replace_char; [exact Hw | constructor] | constructor]).
  rewrite Forall_forall in *. intros c Hc.
  destruct (H3 c Hc) as [Hctl Hsp]. specialize (H1 c Hc). specialize (H2 c Hc).
  split; [assumption|]. split.
  - unfold zero_width. destruct (N.eqb_spec c 0x200B); [contradiction|].
    destruct (N.eqb_spec c 0xFEFF); [contradiction|]. reflexivity.
  - split; [|assumption]. intros ->. specialize (Hsp eq_refl). discriminate.
Qed.

Lemma clean_text_ends (s : str) : trimmed (clean_text s).
Proof.
  destruct s as [|c s]; [|apply strip_trimmed].
  split; [exact I|]. intros [|? ?] ? ?; discriminate.
Qed.

(** No character of a normalized text is a control character, a zero-width
    space, a byte-order mark or a non-breaking space, and the only whitespace
    left is the ASCII space: a normalized text holds no tab and no line
    break. *)
Theorem clean_text_characters (s : str) (c : N) :
  In c (clean_text s) ->
  is_control c = false /\ zero_width c = false
  /\ c <> 0xA0 /\ c <> 0x09 /\ c <> 0x0A /\ c <> 0x0D
  /\ (isspace c = true -> c = 0x20).
Proof.
  intros Hc. pose proof (clean_text_clean_chars s) as H.
  rewrite List.Forall_forall in H. destruct (H c Hc) as (Hctl & Hz & Hn & Hsp).
  repeat split; try assumption; intros ->; discriminate (Hsp eq_refl).
Qed.

Lemma clean_text_characters_witness :
  is_control 0x20 = false /\ zero_width 0x20 = false
  /\ 0x20 <> 0xA0 /\ 0x20 <> 0x09 /\ 0x20 <> 0x0A /\ 0x20 <> 0x0D
  /\ (isspace 0x20 = true -> 0x20 = 0x20).
Proof.
  apply (clean_text_characters (lit "a" ++ [0x09; 0xA0] ++ lit "b") 0x20).
  vm_compute. tauto.
Defined.

(** A normalized text neither starts nor ends with whitespace. *)
Theorem clean_text_trimmed (s : str) :
  (forall c r, clean_text s = c :: r -> isspace c = false)
  /\ (forall p c, clean_text s = p ++ [c] -> isspace c = false).
Proof.
  destruct (clean_text_ends s) as [Hh Hl]. split; [|exact Hl].
  intros c r E. rewrite E in Hh. exact Hh.
Qed.

Lemma lstrip_length s : (length (lstrip s) <= length s)%nat.
Proof.
  destruct (lstrip_suffix s) as [t E]. rewrite E at 2. rewrite length_app. lia.
Qed.

Lemma strip_length s : (length (strip s) <= length s)%nat.
Proof.
  unfold strip. destruct (rstrip_prefix (lstrip s)) as [t E].
  pose proof (lstrip_length s) as H. rewrite E, length_app in H. lia.
Qed.

Lemma sub_spaces_length b s : (length (sub_spaces_from b s) <= length s)%nat.
Proof.
  revert b. induction s as [|c s IH]; intros b; cbn; [lia|].
  destruct (isspace c); [destruct b|]; cbn;
    [specialize (IH true) | specialize (IH true) | specialize (IH false)]; lia.
Qed.

Lemma replace_char_length old new s :
  (length new <= 1)%nat -> (length (replace_char old new s) <= length s)%nat.
Proof.
  intros Hn. unfold replace_char. induction s as [|c s IH]; cbn; [lia|].
  destruct (c =? old); rewrite length_app; cbn; lia.
Qed.

(** Normalization never makes a text longer. *)
Theorem clean_text_length (s : str) : (len (clean_text s) <= len s)%nat.
Proof.
  destruct s as [|c s]; [cbn; lia|]. unfold clean_text, len, replace_special.
  etransitivity; [apply strip_length|].
  etransitivity; [apply replace_char_length; cbn; lia|].
  etransitivity; [apply replace_char_length; cbn; lia|].
  etransitivity; [apply replace_char_length; cbn; lia|].
  etransitivity; [apply sub_spaces_length|].
  unfold sub_control. apply filter_length_le.
Qed.

Lemma lstrip_spaces s : Forall (fun c => c = 0x20) s -> lstrip s = [].
Proof. induction 1 as [|c s -> _ IH]; cbn; auto. Qed.

(** A text made of whitespace, control and zero-width characters only is
    normalized to the empty text. *)
Theorem clean_text_blank (s : str) :
  Forall (fun c => blank_char c = true) s -> clean_text s = [].
Proof.
  intros Hs. destruct s as [|c0 s]; [reflexivity|]. unfold clean_text.
  set (u := sub_control (c0 :: s)).
  assert (Hu : Forall (fun c => isspace c = true \/ zero_width c = true) u).
  { unfold u, sub_control. induction Hs as [|c s' Hc _ IH]; cbn; [constructor|].
    destruct (is_control c) eqn:E; cbn; [assumption|]. constructor; [|assumption].
    unfold blank_char in Hc. rewrite E in Hc.
    destruct (isspace c), (zero_width c); cbn in Hc; auto; discriminate. }
  assert (Hv : Forall (fun c => c = 0x20 \/ zero_width c = true) (sub_spaces u)).
  { unfold sub_spaces. generalize false.
    induction Hu as [|c u' Hc _ IH]; intros b; cbn; [constructor|].
    destruct (isspace c) eqn:E.
    - destruct b; [apply IH|]. constructor; [now left | apply IH].
    - constructor; [|apply IH]. destruct Hc; [congruence | now right]. }
  assert (Hw : Forall (fun c => c = 0x20) (replace_special (sub_spaces u))).
  { unfold replace_special, replace_char.
    induction Hv as [|c v Hc _ IH]; cbn; [constructor|].
    destruct Hc as [->|Hz]; cbn; [constructor; [reflexivity | exact IH]|].
    unfold zero_width in Hz.
    destruct (N.eqb_spec c 0x200B) as [->|]; [cbn; exact IH|].
    destruct (N.eqb_spec c 0xFEFF) as [->|]; [cbn; exact IH | discriminate]. }
  unfold strip. rewrite (lstrip_spaces _ Hw). reflexivity.
Qed.

Lemma clean_text_blank_witness :
  clean_text ([0x20; 0x09; 0x0A; 0x00; 0x200B; 0xA0; 0xFEFF; 0x7F; 0x3000]) = [].
Proof.
  apply clean_text_blank. vm_compute. repeat constructor.
Defined.

Lemma clean_text_idempotent_witness :
  clean_text (clean_text (lit "  Hello   world ")) = clean_text (lit "  Hello   world ").
Proof.
  apply clean_text_idempotent_without_zero_width. vm_compute. repeat constructor.
Defined.

(** The texts that normalization leaves as they are are exactly the texts
    in normal form: clean characters, single spaces, no space at either
    end. *)
Theorem clean_text_fixed_points (r : str) : clean_text r = r <-> normal_form r.
Proof.
  split.
  - intros H.
    assert (Hc : Forall clean_char r) by (rewrite <- H; apply clean_text_clean_chars).
    assert (Hp : Forall plain r).
    { eapply Forall_impl; [exact Hc|]. intros c (? & ? & _). split; assumption. }
    split; [exact Hc|]. split; [|rewrite <- H; apply clean_text_ends].
    destruct r as [|c r]; [exact I|]. unfold clean_text in H.
    rewrite (sub_control_fixed _ Hp) in H.
    set (v := sub_spaces (c :: r)) in H.
    assert (Hv : Forall plain v) by apply Forall_sub_spaces, Hp.
    assert (Hs : spaced false v) by apply sub_spaces_from_spaced.
    rewrite (replace_special_fixed _ _ Hv Hs) in H.
    rewrite <- H. eapply spaced_strip, Hs.
  - intros (Hc & Hs & Ht). apply clean_text_fixed; try assumption.
    eapply Forall_impl; [exact Hc|]. intros c (? & ? & _). split; assumption.
Qed.

(** * Further properties of the extractor *)

Lemma node_induction (P : node -> Prop) :
  (forall s, P (NavigableString s)) ->
  (forall nm at_ cs, Forall P cs -> P (Tag nm at_ cs)) ->
  forall n, P n.
Proof.
  intros Hs Ht. fix IH 1. intros [s|nm a cs]; [apply Hs|]. apply Ht.
  induction cs as [|c cs IHcs]; constructor; [apply IH | exact IHcs].
Qed.

Lemma decompose_all_tag names nm at_ cs :
  decompose_all names (Tag nm at_ cs) = Tag nm at_ (decompose_children names cs).
Proof.
  cbn. f_equal. unfold decompose_children.
  induction cs as [|c cs IH]; cbn; [reflexivity|].
  rewrite IH. destruct (has_name names c); reflexivity.
Qed.

Lemma has_name_decompose_all names names' n :
  has_name names' (decompose_all names n) = has_name names' n.
Proof. destruct n; reflexivity. Qed.

Lemma decompose_all_clean (names : list string) (n : node) :
  Forall (fun d => has_name names d = false) (descendants (decompose_all names n)).
Proof.
  induction n as [s|nm a cs IH] using node_induction; [constructor|].
  rewrite decompose_all_tag. cbn [descendants]. unfold decompose_children.
  induction IH as [|c cs Hc _ IHcs]; cbn; [constructor|].
  destruct (has_name names c) eqn:E; cbn; [exact IHcs|].
  constructor; [now rewrite has_name_decompose_all|].
  apply Forall_app. split; [exact Hc | exact IHcs].
Qed.

Lemma decompose_all_fixed (names : list string) (n : node) :
  Forall (fun d => has_name names d = false) (descendants n) ->
  decompose_all names n = n.
Proof.
  induction n as [s|nm a cs IH] using node_induction; [reflexivity|].
  rewrite decompose_all_tag. cbn [descendants]. intros H. f_equal.
  unfold decompose_children.
  induction IH as [|c cs Hc _ IHcs]; cbn in *; [reflexivity|].
  apply Forall_cons_1 in H as [H1 H2]. apply Forall_app in H2 as [H2 H3].
  rewrite H1. cbn. rewrite (Hc H2), (IHcs H3). reflexivity.
Qed.

(** After the removal no element with one of the names is left anywhere in
    the document: a [script] or [style] element, and whatever stands below
    it, can contribute to no block. *)
Theorem decompose_all_removes (names : list string) (n d : node) :
  In d (descendants (decompose_all names n)) -> has_name names d = false.
Proof.
  intros Hd. pose proof (decompose_all_clean names n) as H.
  rewrite List.Forall_forall in H. exact (H d Hd).
Qed.

Lemma decompose_all_removes_witness :
  has_name unwanted (el "p" [txt "Acme builds widgets for the modern era, delivering quality."])
  = false.
Proof. apply (decompose_all_removes unwanted logo_page). vm_compute. tauto. Defined.

(** A document that holds no element with one of the names is left as it
    is; so removing twice is removing once, and [extract_content] gives on
    a document already rid of the unwanted elements what it gives on the
    document itself. *)
Theorem decompose_all_idempotent (names : list string) (n : node) :
  (Forall (fun d => has_name names d = false) (descendants n) ->
   decompose_all names n = n)
  /\ decompose_all names (decompose_all names n) = decompose_all names n
  /\ extract_content (decompose_all unwanted n) = extract_content n.
Proof.
  split; [apply decompose_all_fixed|].
  split; [apply decompose_all_fixed, decompose_all_clean|].
  unfold extract_content.
  now rewrite (decompose_all_fixed _ _ (decompose_all_clean unwanted n)).
Qed.

Lemma heading_name e : In (node_name e) headings -> has_name headings e = true.
Proof.
  destruct e as [s|nm a cs]; intros H.
  - cbn in H. intuition discriminate.
  - unfold has_name. apply existsb_exists. exists nm.
    split; [exact H | apply String.eqb_refl].
Qed.

(** The whole of what a traversal appends: the blocks obey the length policy
    of their kind, they are blocks of visited elements in the order of the
    visit, their texts are pairwise different, none was in
    [processed_texts] before, and all are in it afterwards. *)
Lemma traverse_body l st :
  exists body,
    (foldl visit st l).1 = st.1 ++ body
    /\ Forall emitted_ok body
    /\ body `sublist_of` map block_of l
    /\ NoDup (map text body)
    /\ (forall b, In b body -> text b ∉ st.2)
    /\ (forall b, In b body -> text b ∈ (foldl visit st l).2).
Proof.
  induction l as [|e l IH] using rev_ind.
  - exists []. cbn. rewrite app_nil_r. repeat split; try constructor; intros ? [].
  - destruct IH as (body & E & Hok & Hsub & Hnd & Hfresh & Hin).
    rewrite foldl_visit_snoc, map_app. cbn [map].
    assert (Hmono : forall t, t ∈ st.2 -> t ∈ (foldl visit st l).2)
      by (intros t Ht; apply traverse_processed; now left).
    assert (Hadd : forall ty t,
               block_of e = Block ty t -> emitted_ok (Block ty t) ->
               t ∉ (foldl visit st l).2 ->
               exists body',
                 (foldl visit st l).1 ++ [Block ty t] = st.1 ++ body'
                 /\ Forall emitted_ok body'
                 /\ body' `sublist_of` map block_of l ++ [block_of e]
                 /\ NoDup (map text body')
                 /\ (forall b, In b body' -> text b ∉ st.2)
                 /\ (forall b, In b body' ->
                       text b ∈ ({[t]} ∪ (foldl visit st l).2 : gset str))).
    { intros ty t Eb Hb Hnot. exists (body ++ [Block ty t]).
      rewrite E, <- app_assoc. split; [reflexivity|].
      split; [apply Forall_app; split; [assumption | constructor; [assumption|constructor]]|].
      split; [rewrite Eb; apply sublist_app; [assumption | reflexivity]|].
      split.
      { rewrite map_app. apply NoDup_app. split; [assumption|].
        split; [|apply NoDup_singleton].
        intros x Hx [<-|[]]%list_elem_of_In. cbn in Hx.
        apply list_elem_of_In, in_map_iff in Hx as (b & <- & Hb'). apply Hnot. auto. }
      split.
      - intros b [Hb'|[<-|[]]]%in_app_or; [auto|]. cbn. intros Ht. apply Hnot. auto.
      - intros b [Hb'|[<-|[]]]%in_app_or.
        + apply elem_of_union_r. auto.
        + apply elem_of_union_l, elem_of_singleton. reflexivity. }
    destruct (visit_cases (foldl visit st l) e); cbn [fst snd].
    + exists body. repeat split; try assumption. now apply sublist_inserts_r.
    + apply Hadd; try assumption.
      * unfold block_of. fold t. now rewrite (heading_name _ H1).
      * left. cbn. auto.
    + apply Hadd; try assumption.
      * unfold block_of. fold t. now rewrite H1.
      * right. cbn. auto.
    + exists body. repeat split; try assumption.
      * now apply sublist_inserts_r.
      * intros b Hb. apply elem_of_union_r. auto.
Qed.

Lemma extract_content_body parsed cs :
  extract_content parsed = Ok cs ->
  exists root body,
    main_content (decompose_all unwanted parsed) = Some root
    /\ cs = (header (decompose_all unwanted parsed)).1 ++ body
    /\ Forall emitted_ok body
    /\ body `sublist_of` map block_of (find_all candidates root)
    /\ NoDup (map text body)
    /\ (forall b, In b body ->
          text b ∉ (header (decompose_all unwanted parsed)).2).
Proof.
  intros (root & Hroot & ->)%extract_content_ok.
  destruct (traverse_body (find_all candidates root)
              (header (decompose_all unwanted parsed)))
    as (body & E & Hok & Hsub & Hnd & Hfresh & _).
  exists root, body. rewrite E. auto 10.
Qed.

(** Every returned block is a title, a paragraph or a heading [h1] to [h6];
    among the blocks of the traversal a heading has at least 10 characters
    and a paragraph more than 30. *)
Theorem extract_content_kinds parsed cs :
  extract_content parsed = Ok cs ->
  Forall (fun b => In (type b) ("title" :: "paragraph" :: headings)%string) cs
  /\ exists body,
      cs = (header (decompose_all unwanted parsed)).1 ++ body
      /\ Forall emitted_ok body.
Proof.
  intros (root & body & _ & -> & Hok & _)%extract_content_body.
  split; [|eauto]. apply Forall_app. split.
  - eapply Forall_impl; [apply header_blocks|].
    intros b [[-> _]|[-> _]]; cbn; auto.
  - eapply Forall_impl; [exact Hok|].
    intros b [[H _]|[-> _]]; cbn; auto.
Qed.

Lemma extract_content_kinds_witness :
  Forall (fun b => In (type b) ("title" :: "paragraph" :: headings)%string) acme_result
  /\ exists body,
      acme_result = (header (decompose_all unwanted acme)).1 ++ body
      /\ Forall emitted_ok body.
Proof. apply (extract_content_kinds acme). vm_compute. reflexivity. Defined.

(** The blocks of the traversal are blocks of candidate elements below the
    content root, in document order: nothing outside the root is emitted
    and no two blocks change places. *)
Theorem extract_content_order parsed cs root :
  main_content (decompose_all unwanted parsed) = Some root ->
  extract_content parsed = Ok cs ->
  exists body,
    cs = (header (decompose_all unwanted parsed)).1 ++ body
    /\ body `sublist_of` map block_of (find_all candidates root).
Proof.
  intros Hroot (root' & body & Hroot' & -> & _ & Hsub & _)%extract_content_body.
  rewrite Hroot in Hroot'. injection Hroot' as <-. eauto.
Qed.

Lemma extract_content_order_witness :
  exists body,
    acme_result = (header (decompose_all unwanted acme)).1 ++ body
    /\ body `sublist_of`
         map block_of
           (find_all candidates
              (el "body"
                 [el "h1" [txt "Welcome to Acme"];
                  el "p" [txt "Acme builds widgets for the modern era, delivering quality."];
                  el "div" [txt "Nav"]])).
Proof.
  apply (extract_content_order acme acme_result); vm_compute; reflexivity.
Defined.

(** The texts of the blocks of the traversal are pairwise different and
    differ from the texts of the title and description blocks; so the whole
    list is free of repeated texts as soon as the description differs from
    the title. *)
Theorem extract_content_unique parsed cs :
  extract_content parsed = Ok cs ->
  (exists body,
      cs = (header (decompose_all unwanted parsed)).1 ++ body
      /\ NoDup (map text body)
      /\ forall b, In b body ->
           ~ In (text b) (map text (header (decompose_all unwanted parsed)).1))
  /\ (NoDup (map text (header (decompose_all unwanted parsed)).1) ->
      NoDup (map text cs)).
Proof.
  intros (root & body & _ & -> & _ & _ & Hnd & Hfresh)%extract_content_body.
  assert (Hd : forall b, In b body ->
             ~ In (text b) (map text (header (decompose_all unwanted parsed)).1)).
  { intros b Hb Hin. apply (Hfresh b Hb).
    apply header_processed, list_elem_of_In, Hin. }
  split; [eauto|]. intros Hh. rewrite map_app. apply NoDup_app.
  split; [assumption|]. split; [|assumption].
  intros x Hx Hx'. apply list_elem_of_In in Hx, Hx'.
  apply in_map_iff in Hx' as (b & <- & Hb). exact (Hd b Hb Hx).
Qed.

Lemma extract_content_unique_witness :
  (exists body,
      acme_result = (header (decompose_all unwanted acme)).1 ++ body
      /\ NoDup (map text body)
      /\ forall b, In b body ->
           ~ In (text b) (map text (header (decompose_all unwanted acme)).1))
  /\ (NoDup (map text (header (decompose_all unwanted acme)).1) ->
      NoDup (map text acme_result)).
Proof. apply (extract_content_unique acme). vm_compute. reflexivity. Defined.

Lemma header_shape soup :
  exists t d,
    (header soup).1 = t ++ d
    /\ (t = [] \/ exists x, t = [Block "title" x])
    /\ (d = [] \/ exists y, d = [Block "paragraph" y]).
Proof.
  unfold header.
  assert (Ht : exists t, (title_step soup ([], ∅)).1 = t
                         /\ (t = [] \/ exists x, t = [Block "title" x])).
  { destruct (title_step_cases soup) as [->|(title & _ & _ & ->)]; cbn; eauto. }
  destruct Ht as (t & Et & Ht).
  destruct (meta_step_cases soup (title_step soup ([], ∅))) as [->|(y & _ & ->)].
  - exists t, []. rewrite app_nil_r. auto.
  - exists t, [Block "paragraph" y]. cbn [fst]. rewrite Et. eauto.
Qed.

(** A title block stands nowhere but at the head of the returned list, and
    the list holds at most one. *)
Theorem title_only_first parsed cs :
  extract_content parsed = Ok cs ->
  Forall (fun b => type b <> "title"%string) (tail cs).
Proof.
  intros (root & body & _ & -> & Hok & _)%extract_content_body.
  assert (Hb : Forall (fun b => type b <> "title"%string) body).
  { eapply Forall_impl; [exact Hok|].
    intros b [[H _]|[-> _]]; [|discriminate].
    intros E. rewrite E in H. cbn in H. intuition discriminate. }
  destruct (header_shape (decompose_all unwanted parsed))
    as (t & d & -> & [->|[x ->]] & [->|[y ->]]); cbn.
  - destruct body; [constructor|]. apply Forall_cons_1 in Hb as [_ Hb]. exact Hb.
  - exact Hb.
  - exact Hb.
  - constructor; [discriminate | exact Hb].
Qed.

Lemma title_only_first_witness :
  Forall (fun b => type b <> "title"%string) (tail acme_result).
Proof. apply (title_only_first acme). vm_compute. reflexivity. Defined.

Lemma heading_not_inline e :
  has_name headings e = true -> has_name ["a"; "span"; "div"]%string e = false.
Proof.
  intros H%has_name_node_name. destruct e as [s|nm a cs]; [reflexivity|].
  cbn in H. destruct H as [<-|[<-|[<-|[<-|[<-|[<-|[]]]]]]]; reflexivity.
Qed.

(** A heading element below the content root whose normalized text has at
    least 10 characters and is neither the text of the title or description
    block nor the text of an earlier element that passed the length rules,
    is emitted as a block of its own tag name. *)
Theorem heading_emitted parsed cs root pre e post :
  main_content (decompose_all unwanted parsed) = Some root ->
  find_all candidates root = pre ++ e :: post ->
  has_name headings e = true ->
  (10 <= len (clean_text (get_text_strip e)))%nat ->
  ~ In (clean_text (get_text_strip e))
       (map text (header (decompose_all unwanted parsed)).1) ->
  (forall e', In e' pre -> passes_length_rules e' ->
              clean_text (get_text_strip e') <> clean_text (get_text_strip e)) ->
  extract_content parsed = Ok cs ->
  In (Block (node_name e) (clean_text (get_text_strip e))) cs.
Proof.
  intros Hroot Hall Hh Hlen Hhead Hpre Hex. unfold extract_content in Hex.
  rewrite Hroot, Hall in Hex. injection Hex as <-.
  rewrite foldl_app. cbn [foldl].
  set (st := foldl visit (header (decompose_all unwanted parsed)) pre).
  set (t := clean_text (get_text_strip e)) in *.
  assert (Hnot : t ∉ st.2).
  { intros Hin. apply traverse_processed in Hin as [Hin|(e' & He' & Hp & Et)].
    - apply Hhead. apply list_elem_of_In, header_processed, Hin.
    - exact (Hpre e' He' Hp Et). }
  assert (Ev : visit st e = (st.1 ++ [Block (node_name e) t], {[t]} ∪ st.2)).
  { unfold visit. fold t.
    destruct (nonempty_len t) as [_ ->]; [|unfold len in *; lia].
    destruct (Nat.ltb_spec (len t) 10); [lia|].
    rewrite (bool_decide_eq_false_2 _ Hnot), (heading_not_inline _ Hh), Hh.
    cbn. now rewrite andb_false_r. }
  rewrite Ev.
  destruct (traverse_blocks post (st.1 ++ [Block (node_name e) t], {[t]} ∪ st.2))
    as (body & -> & _).
  cbn [fst]. apply in_or_app. left. apply in_or_app. right. now left.
Qed.

Lemma heading_emitted_witness :
  In (Block (node_name (el "h1" [txt "Welcome to Acme"]))
            (clean_text (get_text_strip (el "h1" [txt "Welcome to Acme"]))))
     acme_result.
Proof.
  apply (heading_emitted acme acme_result
           (el "body"
              [el "h1" [txt "Welcome to Acme"];
               el "p" [txt "Acme builds widgets for the modern era, delivering quality."];
               el "div" [txt "Nav"]])
           [] (el "h1" [txt "Welcome to Acme"])
           [el "p" [txt "Acme builds widgets for the modern era, delivering quality."];
            el "div" [txt "Nav"]]).
  - vm_compute. reflexivity.
  - vm_compute. reflexivity.
  - reflexivity.
  - vm_compute. lia.
  - vm_compute. intros [H|[]]. discriminate H.
  - intros e' [].
  - vm_compute. reflexivity.
Defined.

(** * Further properties of the renderers *)

Lemma render_item_unrendered upper b : rendered b = false -> render_item upper b = [].
Proof.
  unfold rendered, render_item. cbn [existsb].
  destruct (String.eqb (type b) "title"); [discriminate|].
  destruct (String.eqb (type b) "h1"); [discriminate|].
  destruct (String.eqb (type b) "h2"); [discriminate|].
  destruct (String.eqb (type b) "h3"); [discriminate|].
  destruct (String.eqb (type b) "h4"); [discriminate|].
  destruct (String.eqb (type b) "paragraph"); [discriminate|]. reflexivity.
Qed.

Lemma text_lines_concat upper cs1 cs2 :
  text_lines upper (cs1 ++ cs2) = text_lines upper cs1 ++ text_lines upper cs2.
Proof. rewrite !text_lines_flat_map. apply flat_map_app. Qed.

(** The plain-text renderer writes nothing for a block that is no title, no
    heading [h1] to [h4] and no paragraph: the output is that of the list
    without such blocks. *)
Theorem create_text_file_rendered_only (upper : str -> str) (cs : list block) :
  create_text_file upper cs = create_text_file upper (List.filter rendered cs).
Proof.
  unfold create_text_file. f_equal. rewrite !text_lines_flat_map.
  induction cs as [|b cs IH]; [reflexivity|]. cbn [flat_map List.filter].
  destruct (rendered b) eqn:E; cbn [flat_map]; rewrite IH; [reflexivity|].
  now rewrite (render_item_unrendered _ _ E).
Qed.

(** The lines of a list of blocks are the lines of its parts, one after the
    other: what is written for a block depends on no other block. *)
Theorem text_lines_compose (upper : str -> str) (parts : list (list block)) :
  text_lines upper (concat parts) = concat (map (text_lines upper) parts).
Proof.
  induction parts as [|p parts IH]; [reflexivity|].
  cbn [concat map]. now rewrite text_lines_concat, IH.
Qed.

Section RichTextFacts.

Variable document : Type.
Variable new_document : document.
Variable add_heading : str -> nat -> document -> document * bool.
Variable center_heading : document -> document * bool.
Variable add_paragraph : option str -> document -> document * bool.
Variable save : document -> list N.

Lemma word_item_unrendered doc b :
  rendered b = false ->
  word_item document add_heading center_heading add_paragraph doc b = doc.
Proof.
  unfold rendered, word_item. cbn [existsb].
  destruct (String.eqb (type b) "title"); [discriminate|].
  destruct (String.eqb (type b) "h1"); [discriminate|].
  destruct (String.eqb (type b) "h2"); [discriminate|].
  destruct (String.eqb (type b) "h3"); [discriminate|].
  destruct (String.eqb (type b) "h4"); [discriminate|].
  destruct (String.eqb (type b) "paragraph"); [discriminate|]. reflexivity.
Qed.

(** The rich-text renderer makes no library call for a block that is no
    title, no heading [h1] to [h4] and no paragraph, [h5] and [h6] among
    them: the document is that of the list without such blocks, whatever
    the library calls do and whichever of them raise. *)
Theorem create_word_document_rendered_only (cs : list block) :
  create_word_document document new_document add_heading center_heading
    add_paragraph save cs
  = create_word_document document new_document add_heading center_heading
      add_paragraph save (List.filter rendered cs).
Proof.
  unfold create_word_document. f_equal. generalize new_document.
  induction cs as [|b cs IH]; intros doc; [reflexivity|]. cbn [foldl List.filter].
  destruct (rendered b) eqn:E; cbn [foldl]; [apply IH|].
  rewrite (word_item_unrendered _ _ E). apply IH.
Qed.

End RichTextFacts.

(** * Further properties of the browser session *)

Module FetchMore.
Import Fetch FetchStatements.

(** Every run, one call at a time: the run is named, and each call either
    raises or returns. *)
Ltac explore cb b r E :=
  remember (fetch_with_selenium cb b start) as r eqn:E;
  destruct cb;
  cbv [fetch_with_selenium setup_driver report try_finally try_except
       mbind mret M_bind M_ret bind ret do raise assign_driver read_driver
       ask start trace driver] in E;
  cbn in E;
  repeat match type of E with
         | context [raises ?b' ?n] => destruct (raises b' n) eqn:?; cbn in E
         end;
  subst r.

(** At most one browser is started in a run and [quit] is called at most
    once, on that browser, as the last call of the run: the browser is
    never used after [quit]. *)
Theorem one_browser_quit_last (progress_callback : bool) (b : browser) :
  (length (started (trace (fetch_with_selenium progress_callback b start).2)) <= 1)%nat
  /\ (length (quit_called (trace (fetch_with_selenium progress_callback b start).2)) <= 1)%nat
  /\ forall d,
       In d (quit_called (trace (fetch_with_selenium progress_callback b start).2)) ->
       In d (started (trace (fetch_with_selenium progress_callback b start).2))
       /\ exists returned,
           last (trace (fetch_with_selenium progress_callback b start).2)
           = Some (Quit d, returned).
Proof.
  explore progress_callback b r E;
    (split; [vm_compute; lia|]; split; [vm_compute; lia|];
     intros d Hd; vm_compute in Hd;
     first [ contradiction
           | destruct Hd as [<-|[]]; split; [vm_compute; auto | eexists; reflexivity] ]).
Qed.

(** The call returns exactly when no call raised except, possibly, the first
    two attempts to start Chrome; it then returns the page source and the
    title of the browser.  Any other exception, the one of [quit] included,
    ends the call with an exception. *)
Theorem fetch_returns (progress_callback : bool) (b : browser) :
  match (fetch_with_selenium progress_callback b start).1 with
  | Returned v =>
      v = (page_source b, title b)
      /\ forallb harmless (trace (fetch_with_selenium progress_callback b start).2) = true
  | Raised =>
      forallb harmless (trace (fetch_with_selenium progress_callback b start).2) = false
  end.
Proof.
  explore progress_callback b r E; cbn [fst snd trace];
    first [ split; reflexivity | reflexivity ].
Qed.

(** The progress callback receives the percentages 10, 30, 50, 70, 90 in
    this order, up to the point the run got to: all five when the call
    returns, none when no callback was given. *)
Theorem progress_reports (progress_callback : bool) (b : browser) :
  reported (trace (fetch_with_selenium progress_callback b start).2)
    `prefix_of` [10; 30; 50; 70; 90]%nat
  /\ (progress_callback = false ->
      reported (trace (fetch_with_selenium progress_callback b start).2) = [])
  /\ (progress_callback = true ->
      forall v, (fetch_with_selenium progress_callback b start).1 = Returned v ->
      reported (trace (fetch_with_selenium progress_callback b start).2)
      = [10; 30; 50; 70; 90]%nat).
Proof.
  explore progress_callback b r E; cbn [fst snd trace];
    (split; [eexists; vm_compute; reflexivity|];
     split; [intros; first [discriminate | reflexivity]|];
     intros; first [discriminate | reflexivity]).
Qed.

(** After a call raised an exception that is not caught, nothing is retried
    and the browser is not used again: the only call that may follow is
    [quit]. *)
Theorem nothing_after_failure (progress_callback : bool) (b : browser) :
  match after_failure (trace (fetch_with_selenium progress_callback b start).2) with
  | None | Some [] => True
  | Some [(Quit _, _)] => True
  | Some _ => False
  end.
Proof.
  explore progress_callback b r E; exact I.
Qed.

End FetchMore.

(** * The texts of the blocks and the renderers *)

Lemma header_texts soup :
  Forall (fun b => exists raw, text b = clean_text raw) (header soup).1.
Proof.
  unfold header.
  assert (Ht : Forall (fun b => exists raw, text b = clean_text raw)
                 (title_step soup ([], ∅)).1).
  { destruct (title_step_cases soup) as [->|(title & _ & _ & ->)]; cbn [fst].
    - constructor.
    - constructor; [|constructor]. cbn. eauto. }
  revert Ht. generalize (title_step soup ([], ∅)). intros st Ht.
  unfold meta_step.
  destruct (find is_meta_description soup) as [m|]; [|exact Ht].
  destruct (get_attr "content" m) as [c|]; [|exact Ht].
  destruct (nonempty c); [|exact Ht].
  destruct (nonempty (clean_text c) && (10 <? len (clean_text c))%nat); [|exact Ht].
  cbn [fst]. apply Forall_app. split; [exact Ht|].
  constructor; [|constructor]. cbn. eauto.
Qed.

(** The text of every returned block is a normalized text: it is
    [clean_text] of some raw text, it holds clean characters only and has no
    whitespace at either end. *)
Theorem block_texts_normalized parsed cs :
  extract_content parsed = Ok cs ->
  Forall (fun b => (exists raw, text b = clean_text raw)
                   /\ Forall clean_char (text b) /\ trimmed (text b)) cs.
Proof.
  intros (root & body & _ & -> & _ & Hsub & _)%extract_content_body.
  assert (H : Forall (fun b => exists raw, text b = clean_text raw)
                ((header (decompose_all unwanted parsed)).1 ++ body)).
  { apply Forall_app. split; [apply header_texts|].
    rewrite Forall_forall. intros b Hb.
    apply (elem_of_sublist _ _ _ Hb) in Hsub.
    apply list_elem_of_In, in_map_iff in Hsub as (e & <- & _). cbn. eauto. }
  eapply Forall_impl; [exact H|]. intros b [raw E].
  split; [eauto|]. rewrite E.
  split; [apply clean_text_clean_chars | apply clean_text_ends].
Qed.

Lemma block_texts_normalized_witness :
  Forall (fun b => (exists raw, text b = clean_text raw)
                   /\ Forall clean_char (text b) /\ trimmed (text b)) acme_result.
Proof. apply (block_texts_normalized acme). vm_compute. reflexivity. Defined.

Section BothRenderers.

Variable upper : str -> str.
Variable document : Type.
Variable add_heading : str -> nat -> document -> document * bool.
Variable center_heading : document -> document * bool.
Variable add_paragraph : option str -> document -> document * bool.

(** What the two renderers do with each block [extract_content] returns.
    [create_text_file] appends the banner of a title, the heading lines
    with as many hashes as the level of a heading [h1] to [h4], or the line
    of a paragraph and a blank line; [create_word_document] calls
    [add_heading] with the level, centring the title and adding an empty
    paragraph after it, or [add_paragraph] with the text.  The only returned
    blocks for which [create_text_file] appends no line and
    [create_word_document] makes no call are the headings [h5] and [h6]. *)
Theorem extracted_blocks_rendered parsed cs :
  extract_content parsed = Ok cs ->
  Forall
    (fun b =>
       (type b = "title"%string
        /\ render_item upper b = [times 0x3D 80; upper (text b); times 0x3D 80; []]
        /\ forall doc,
             word_item document add_heading center_heading add_paragraph doc b
             = (let (doc1, returned1) := add_heading (text b) 0 doc in
                if returned1 then
                  let (doc2, returned2) := center_heading doc1 in
                  if returned2 then (add_paragraph None doc2).1 else doc2
                else doc1))
       \/ (exists level,
              (1 <= level <= 4)%nat
              /\ type b = heading_type level
              /\ render_item upper b = heading_lines level (text b)
              /\ forall doc,
                   word_item document add_heading center_heading add_paragraph doc b
                   = (add_heading (text b) level doc).1)
       \/ (type b = "paragraph"%string
           /\ render_item upper b = [text b; []]
           /\ forall doc,
                word_item document add_heading center_heading add_paragraph doc b
                = (add_paragraph (Some (text b)) doc).1)
       \/ ((type b = "h5"%string \/ type b = "h6"%string)
           /\ render_item upper b = []
           /\ forall doc,
                word_item document add_heading center_heading add_paragraph doc b
                = doc))
    cs.
Proof.
  intros (root & body & _ & -> & Hok & _)%extract_content_body.
  assert (Htitle : forall b, type b = "title"%string ->
            render_item upper b = [times 0x3D 80; upper (text b); times 0x3D 80; []]
            /\ forall doc,
                 word_item document add_heading center_heading add_paragraph doc b
                 = (let (doc1, returned1) := add_heading (text b) 0 doc in
                    if returned1 then
                      let (doc2, returned2) := center_heading doc1 in
                      if returned2 then (add_paragraph None doc2).1 else doc2
                    else doc1)).
  { intros [ty tx] E. cbn in E. subst ty. split; [reflexivity|]. intros doc. reflexivity. }
  assert (Hpar : forall b, type b = "paragraph"%string ->
            render_item upper b = [text b; []]
            /\ forall doc,
                 word_item document add_heading center_heading add_paragraph doc b
                 = (add_paragraph (Some (text b)) doc).1).
  { intros [ty tx] E. cbn in E. subst ty. split; [reflexivity|]. intros doc. reflexivity. }
  apply Forall_app. split.
  - eapply Forall_impl; [apply header_blocks|].
    intros b [[E _]|[E _]].
    + left. split; [exact E | apply Htitle, E].
    + right. right. left. split; [exact E | apply Hpar, E].
  - eapply Forall_impl; [exact Hok|].
    intros b [[H _]|[E _]].
    2:{ right. right. left. split; [exact E | apply Hpar, E]. }
    destruct b as [ty tx]. cbn in H.
    destruct H as [<-|[<-|[<-|[<-|[<-|[<-|[]]]]]]].
    + right. left. exists 1%nat. repeat split; try lia; reflexivity.
    + right. left. exists 2%nat. repeat split; try lia; reflexivity.
    + right. left. exists 3%nat. repeat split; try lia; reflexivity.
    + right. left. exists 4%nat. repeat split; try lia; reflexivity.
    + right. right. right. split; [now left|]. split; [reflexivity|]. intros doc. reflexivity.
    + right. right. right. split; [now right|]. split; [reflexivity|]. intros doc. reflexivity.
Qed.

End BothRenderers.

(** On the scenario page, with a library that appends to a list of texts. *)
Lemma extracted_blocks_rendered_witness :
  Forall
    (fun b =>
       (type b = "title"%string
        /\ render_item (fun s => s) b = [times 0x3D 80; text b; times 0x3D 80; []]
        /\ forall doc : list str,
             word_item (list str) (fun t _ d => (d ++ [t], true)) (fun d => (d, true))
               (fun t d => (d ++ [default [] t], true)) doc b
             = (let (doc1, returned1) := (doc ++ [text b], true) in
                if returned1 then
                  let (doc2, returned2) := (doc1, true) in
                  if returned2 then (doc2 ++ [default [] None], true).1 else doc2
                else doc1))
       \/ (exists level,
              (1 <= level <= 4)%nat
              /\ type b = heading_type level
              /\ render_item (fun s => s) b = heading_lines level (text b)
              /\ forall doc : list str,
                   word_item (list str) (fun t _ d => (d ++ [t], true)) (fun d => (d, true))
                     (fun t d => (d ++ [default [] t], true)) doc b
                   = (doc ++ [text b], true).1)
       \/ (type b = "paragraph"%string
           /\ render_item (fun s => s) b = [text b; []]
           /\ forall doc : list str,
                word_item (list str) (fun t _ d => (d ++ [t], true)) (fun d => (d, true))
                  (fun t d => (d ++ [default [] t], true)) doc b
                = (doc ++ [default [] (Some (text b))], true).1)
       \/ ((type b = "h5"%string \/ type b = "h6"%string)
           /\ render_item (fun s => s) b = []
           /\ forall doc : list str,
                word_item (list str) (fun t _ d => (d ++ [t], true)) (fun d => (d, true))
                  (fun t d => (d ++ [default [] t], true)) doc b
                = doc))
    acme_result.
Proof.
  apply (extracted_blocks_rendered (fun s => s) (list str)
           (fun t _ d => (d ++ [t], true)) (fun d => (d, true))
           (fun t d => (d ++ [default [] t], true)) acme).
  vm_compute. reflexivity.
Defined.
